(** * Athlete registration service (server.ts): record store and HTTP handlers

    The server keeps one SQLite table, [athletes], and exposes three
    routes over it: POST /api/register, GET /api/athletes and
    DELETE /api/athletes/:id.  This development embeds

    - the values that cross the two boundaries of the handlers: JSON
      values read from the request body, SQLite values stored in the
      table;
    - the table schema of the [CREATE TABLE] statement (column affinities,
      NOT NULL, UNIQUE, AUTOINCREMENT, the CURRENT_TIMESTAMP default);
    - the three statements the handlers run and the try/catch around each.

    Scope of the model.  A property of the request body is absent, null, a
    boolean, a number, a string, an array or an object: what JSON.parse
    produces.  Numbers are carried by their exact rational value: rounding
    to binary64 is not modelled, and a number beyond the range of binary64
    stands for the infinity it becomes; rowids are carried by their integer
    value (the JSON number of an id is exact up to 2^53).
    [created_at] is the clock reading in whole seconds: the text
    'YYYY-MM-DD HH:MM:SS' that CURRENT_TIMESTAMP produces has a resolution
    of one second and, compared as text, orders like that reading. *)

From Stdlib Require Import List ZArith QArith Qabs Bool Ascii String Lia.
From Stdlib Require Import DecimalPos DecimalString Sorted Permutation.
From Stdlib Require Qcanon.
Import ListNotations.
Open Scope string_scope.
Open Scope Z_scope.

(** ** Values *)

(** A property of [req.body] as the handler reads it ([data.cpf], ...). *)
#[warnings="-register-all"] Inductive JsValue : Type :=
| JsUndefined
| JsNull
| JsBool (b : bool)
| JsNumber (q : Q)
| JsString (s : string)
| JsArray (items : list JsValue)
| JsObject.                      (* a plain object; the handlers read nothing of it *)

(** A value held in a column of the table. *)
Inductive SqlValue : Type :=
| SNull
| SInt (n : Z)
| SReal (q : Q)
| SText (s : string).

(** What a JavaScript call gives back: a value, or a thrown exception of
    which the handlers only read [message]. *)
Inductive outcome (A : Type) : Type :=
| Returned (a : A)
| Thrown (message : string).
Arguments Returned {A} a.
Arguments Thrown {A} message.

Definition bind {A B : Type} (o : outcome A) (k : A -> outcome B) : outcome B :=
  match o with
  | Returned a => k a
  | Thrown m => Thrown m
  end.

Notation "x <- o ;; k" := (bind o (fun x => k))
  (at level 61, o at next level, right associativity).

(** The condition of [data.termo_aceite ? 1 : 0]: JavaScript truthiness. *)
Definition truthy (v : JsValue) : bool :=
  match v with
  | JsUndefined | JsNull => false
  | JsBool b => b
  | JsNumber q => negb (Qeq_bool q 0)
  | JsString s => negb (String.eqb s "")
  | JsArray _ | JsObject => true
  end.

(** ** Text and numbers in SQLite *)

Definition is_digit (c : ascii) : bool :=
  let n := N_of_ascii c in ((48 <=? n) && (n <=? 57))%N.

Definition digit_value (c : ascii) : Z := Z.of_N (N_of_ascii c) - 48.

(** [sqlite3Isspace]: space, \t, \n, \v, \f, \r. *)
Definition is_space (c : ascii) : bool :=
  let n := N_of_ascii c in ((n =? 32) || ((9 <=? n) && (n <=? 13)))%N.

Fixpoint skip_spaces (s : string) : string :=
  match s with
  | String c r => if is_space c then skip_spaces r else s
  | EmptyString => s
  end.

(** Reads a run of digits: the accumulated value, how many digits were
    read, and the rest of the text. *)
Fixpoint span_digits (s : string) (acc : Z) (n : Z) : Z * Z * string :=
  match s with
  | String c r =>
      if is_digit c then span_digits r (acc * 10 + digit_value c) (n + 1)
      else (acc, n, s)
  | EmptyString => (acc, n, s)
  end.

Definition read_sign (s : string) : Z * string :=
  match s with
  | String "-" r => (-1, r)
  | String "+" r => (1, r)
  | _ => (1, s)
  end.

(** m * 10^e as a rational in lowest terms. *)
Definition scale10 (m e : Z) : Q :=
  if 0 <=? e then inject_Z (m * 10 ^ e)
  else Qred (Qmake m (Z.to_pos (10 ^ (- e)))).

(** [sqlite3AtoF] as the affinity rules use it: [Some q] when the whole
    text is a number (optional blanks, sign, digits with an optional
    fraction, optional exponent, optional blanks), [None] otherwise. *)
Definition sqlite3AtoF (z : string) : option Q :=
  let z := skip_spaces z in
  let '(sign, z) := read_sign z in
  let '(s, nInt, z) := span_digits z 0 0 in
  let '(s, nFrac, z) :=
    match z with
    | String "." r => span_digits r s 0
    | _ => (s, 0, z)
    end in
  let '(e, eValid, z) :=
    match z with
    | String c r =>
        if (Ascii.eqb c "e" || Ascii.eqb c "E")%bool then
          let '(esign, r) := read_sign r in
          let '(e, nExp, r) := span_digits r 0 0 in
          (esign * e, 0 <? nExp, r)
        else (0, true, z)
    | EmptyString => (0, true, z)
    end in
  let z := skip_spaces z in
  match z with
  | EmptyString =>
      if ((0 <? nInt + nFrac) && eValid)%bool
      then Some (scale10 (sign * s) (e - nFrac))
      else None
  | _ => None
  end.

Definition int_to_text (n : Z) : string := NilZero.string_of_int (Z.to_int n).

Fixpoint zeros (n : nat) : string :=
  match n with
  | O => ""
  | S k => String "0" (zeros k)
  end.

Fixpoint strip_zeros_rev (l : list ascii) : list ascii :=
  match l with
  | c :: r => if Ascii.eqb c "0" then strip_zeros_rev r else l
  | [] => []
  end.

(** Drops the trailing zeros of a digit string, keeping one digit. *)
Definition strip_trailing_zeros (s : string) : string :=
  match list_ascii_of_string s with
  | [] => s
  | c :: r => String c (string_of_list_ascii (rev (strip_zeros_rev (rev r))))
  end.

Definition digits10 (n : Z) : Z := Z.of_nat (String.length (int_to_text n)).

Definition or_zero (s : string) : string := if String.eqb s "" then "0" else s.

Definition two_digits (n : Z) : string :=
  if n <? 10 then "0" ++ int_to_text n else int_to_text n.

(** The text of a REAL, as SQLite converts it for a TEXT column, here
    with the "%!.15g" conversion: fifteen significant digits, always a
    decimal point, exponent form below 1e-4 and from 1e15 on.  (How many
    digits are kept depends on the version of SQLite; the properties below
    only use that the result is text.) *)
Definition real_to_text (q : Q) : string :=
  let n := Z.abs (Qnum q) in
  let d := Zpos (Qden q) in
  if n =? 0 then "0.0" else
  let e0 := digits10 n - digits10 d in
  let reaches := if 0 <=? e0 then d * 10 ^ e0 <=? n else d <=? n * 10 ^ (- e0) in
  let e := if reaches then e0 else e0 - 1 in
  let num := if e <=? 14 then n * 10 ^ (14 - e) else n in
  let den := if e <=? 14 then d else d * 10 ^ (e - 14) in
  let m := (2 * num + den) / (2 * den) in
  let '(m, e) := if 10 ^ 15 <=? m then (m / 10, e + 1) else (m, e) in
  let ds := strip_trailing_zeros (int_to_text m) in
  let sign := if Qnum q <? 0 then "-" else "" in
  let len := Z.of_nat (String.length ds) in
  sign ++
  (if (e <? -4) || (15 <=? e) then
     substring 0 1 ds ++ "." ++ or_zero (substring 1 (String.length ds - 1) ds)
     ++ "e" ++ (if e <? 0 then "-" else "+") ++ two_digits (Z.abs e)
   else if 0 <=? e then
     if len <=? e + 1 then ds ++ zeros (Z.to_nat (e + 1 - len)) ++ ".0"
     else substring 0 (Z.to_nat (e + 1)) ds ++ "."
          ++ substring (Z.to_nat (e + 1)) (String.length ds) ds
   else "0." ++ zeros (Z.to_nat (- e - 1)) ++ ds)%bool.

(** ** The athletes table *)

(** The columns the INSERT statement names, in its order (which is also
    the order of the CREATE TABLE statement). *)
Inductive Column : Type :=
| nome_completo | cpf | data_nascimento | sexo | whatsapp | peso | altura
| tam_kimono | num_calcado | foto_url
| lado_dominante | graduacao_faixa | numero_nis
| logradouro | numero | bairro | cidade | uf
| escola | serie_ano | turno_estudo
| restricao_medica | possui_alergias | tipo_sanguineo
| contato_emergencia_nome | contato_emergencia_tel
| responsavel_legal | responsavel_cpf | termo_aceite.

Scheme Equality for Column.

Definition insert_columns : list Column :=
  [ nome_completo; cpf; data_nascimento; sexo; whatsapp; peso; altura;
    tam_kimono; num_calcado; foto_url;
    lado_dominante; graduacao_faixa; numero_nis;
    logradouro; numero; bairro; cidade; uf;
    escola; serie_ano; turno_estudo;
    restricao_medica; possui_alergias; tipo_sanguineo;
    contato_emergencia_nome; contato_emergencia_tel;
    responsavel_legal; responsavel_cpf; termo_aceite ].

Definition column_name (c : Column) : string :=
  match c with
  | nome_completo => "nome_completo" | cpf => "cpf"
  | data_nascimento => "data_nascimento" | sexo => "sexo"
  | whatsapp => "whatsapp" | peso => "peso" | altura => "altura"
  | tam_kimono => "tam_kimono" | num_calcado => "num_calcado"
  | foto_url => "foto_url" | lado_dominante => "lado_dominante"
  | graduacao_faixa => "graduacao_faixa" | numero_nis => "numero_nis"
  | logradouro => "logradouro" | numero => "numero" | bairro => "bairro"
  | cidade => "cidade" | uf => "uf" | escola => "escola"
  | serie_ano => "serie_ano" | turno_estudo => "turno_estudo"
  | restricao_medica => "restricao_medica"
  | possui_alergias => "possui_alergias"
  | tipo_sanguineo => "tipo_sanguineo"
  | contato_emergencia_nome => "contato_emergencia_nome"
  | contato_emergencia_tel => "contato_emergencia_tel"
  | responsavel_legal => "responsavel_legal"
  | responsavel_cpf => "responsavel_cpf" | termo_aceite => "termo_aceite"
  end.

(** Declared types: REAL for peso and altura, INTEGER for termo_aceite,
    TEXT for the rest. *)
Inductive Affinity : Type := AffText | AffReal | AffInteger.

Definition affinity (c : Column) : Affinity :=
  match c with
  | peso | altura => AffReal
  | termo_aceite => AffInteger
  | _ => AffText
  end.

Definition not_null (c : Column) : bool :=
  match c with
  | nome_completo | cpf => true
  | _ => false
  end.

Definition unique (c : Column) : bool :=
  match c with
  | cpf => true
  | _ => false
  end.

(** One row: the AUTOINCREMENT key, the twenty-nine inserted columns and
    the defaulted [created_at]. *)
Record Row : Type := {
  id : Z;
  fields : list (Column * SqlValue);
  created_at : Z
}.

(** The database file: the table in rowid order, and the entry of
    [sqlite_sequence] for it (the largest rowid the table ever held;
    0 while there is none). *)
Record Db : Type := {
  rows : list Row;
  sqlite_sequence : Z
}.

Definition empty_db : Db := {| rows := []; sqlite_sequence := 0 |}.

(** What a request finds outside the database: the clock, and whether the
    driver fails on the statement (file locked, I/O error, ...). *)
Record Env : Type := {
  now : Z;
  fault : option string
}.

Definition field_of (r : Row) (c : Column) : SqlValue :=
  match find (fun p => Column_beq (fst p) c) (fields r) with
  | Some p => snd p
  | None => SNull
  end.

(** ** Binding and storing *)

(** The request body: [data c] is the property named after column [c]. *)
Definition Payload : Type := Column -> JsValue.

(** The arguments of [stmt.run(...)] in POST /api/register. *)
Definition run_args (data : Payload) : list JsValue :=
  [ data nome_completo; data cpf; data data_nascimento; data sexo;
    data whatsapp; data peso; data altura; data tam_kimono;
    data num_calcado; data foto_url;
    data lado_dominante; data graduacao_faixa; data numero_nis;
    data logradouro; data numero; data bairro; data cidade; data uf;
    data escola; data serie_ano; data turno_estudo;
    data restricao_medica; data possui_alergias; data tipo_sanguineo;
    data contato_emergencia_nome; data contato_emergencia_tel;
    data responsavel_legal; data responsavel_cpf;
    JsNumber (if truthy (data termo_aceite) then 1 else 0) ].

(** How the driver binds one value: numbers as REAL, strings as TEXT,
    null and undefined as NULL; anything else is refused. *)
Definition bind_value (v : JsValue) : outcome SqlValue :=
  match v with
  | JsNumber q => Returned (SReal q)
  | JsString s => Returned (SText s)
  | JsNull | JsUndefined => Returned SNull
  | JsBool _ | JsArray _ | JsObject =>
      Thrown "SQLite3 can only bind numbers, strings, bigints, buffers, and null"
  end.

(** The value goes to the next placeholder; the statement has one
    placeholder per inserted column and SQLite refuses an index beyond
    the last. *)
Definition bind_next (bound : list SqlValue) (v : JsValue) : outcome (list SqlValue) :=
  x <- bind_value v ;;
  if (List.length insert_columns <=? List.length bound)%nat
  then Thrown "Too many parameter values were provided"
  else Returned (bound ++ [x])%list.

(** An argument that is an array is spread: each of its elements takes a
    placeholder. *)
Fixpoint bind_array (items : list JsValue) (bound : list SqlValue)
  : outcome (list SqlValue) :=
  match items with
  | [] => Returned bound
  | v :: rest => b <- bind_next bound v ;; bind_array rest b
  end.

(** The arguments of [run], from left to right.  A plain object is the
    source of the named parameters, of which the statement has none: it
    takes no placeholder, and a second one is refused. *)
Fixpoint bind_args (args : list JsValue) (bound : list SqlValue) (bound_object : bool)
  : outcome (list SqlValue) :=
  match args with
  | [] => Returned bound
  | JsArray items :: rest =>
      b <- bind_array items bound ;; bind_args rest b bound_object
  | JsObject :: rest =>
      if bound_object
      then Thrown "You cannot specify named parameters in two different objects"
      else bind_args rest bound true
  | v :: rest => b <- bind_next bound v ;; bind_args rest b bound_object
  end.

(** The values bound to the placeholders, in order: as many as the
    statement has placeholders, or the call throws. *)
Definition bind_values (args : list JsValue) : outcome (list SqlValue) :=
  bound <- bind_args args [] false ;;
  if (List.length bound =? List.length insert_columns)%nat then Returned bound
  else if (List.length bound <? List.length insert_columns)%nat
       then Thrown "Too few parameter values were provided"
       else Thrown "Too many parameter values were provided".

Definition MAX_ROWID : Z := 9223372036854775807.

Definition is_integral (q : Q) : bool := (Qden (Qred q) =? 1)%positive.

(** A number offered to an INTEGER column is kept as an integer when it
    is one that fits in 64 bits. *)
Definition integer_or_real (q : Q) : SqlValue :=
  if (is_integral q && (- MAX_ROWID - 1 <=? Qnum (Qred q))
      && (Qnum (Qred q) <=? MAX_ROWID))%bool
  then SInt (Qnum (Qred q)) else SReal q.

(** Column affinity, applied to a value on its way into the table. *)
Definition apply_affinity (a : Affinity) (v : SqlValue) : SqlValue :=
  match a, v with
  | AffText, SInt n => SText (int_to_text n)
  | AffText, SReal q => SText (real_to_text q)
  | AffReal, SInt n => SReal (inject_Z n)
  | AffReal, SText s =>
      match sqlite3AtoF s with
      | Some q => SReal q
      | None => SText s
      end
  | AffInteger, SReal q => integer_or_real q
  | AffInteger, SText s =>
      match sqlite3AtoF s with
      | Some q => integer_or_real q
      | None => SText s
      end
  | _, _ => v
  end.

Definition store_values (params : list SqlValue) : list (Column * SqlValue) :=
  map (fun p => (fst p, apply_affinity (affinity (fst p)) (snd p)))
      (combine insert_columns params).

(** Equality as the UNIQUE index sees it: NULL equals nothing, numbers
    compare by value, text byte by byte. *)
Definition sql_equal (a b : SqlValue) : bool :=
  match a, b with
  | SInt m, SInt n => m =? n
  | SInt m, SReal q | SReal q, SInt m => Qeq_bool (inject_Z m) q
  | SReal p, SReal q => Qeq_bool p q
  | SText s, SText t => String.eqb s t
  | _, _ => false
  end.

Definition value_of (vals : list (Column * SqlValue)) (c : Column) : SqlValue :=
  field_of {| id := 0; fields := vals; created_at := 0 |} c.

Fixpoint check_not_null (cols : list Column) (vals : list (Column * SqlValue))
  : outcome unit :=
  match cols with
  | [] => Returned tt
  | c :: rest =>
      match not_null c, value_of vals c with
      | true, SNull =>
          Thrown ("NOT NULL constraint failed: athletes." ++ column_name c)
      | _, _ => check_not_null rest vals
      end
  end.

Fixpoint check_unique (cols : list Column) (table : list Row)
    (vals : list (Column * SqlValue)) : outcome unit :=
  match cols with
  | [] => Returned tt
  | c :: rest =>
      if (unique c
          && existsb (fun r => sql_equal (field_of r c) (value_of vals c)) table)%bool
      then Thrown ("UNIQUE constraint failed: athletes." ++ column_name c)
      else check_unique rest table vals
  end.

Fixpoint last_rowid (table : list Row) : option Z :=
  match table with
  | [] => None
  | r :: rest =>
      match last_rowid rest with
      | None => Some (id r)
      | Some m => Some (Z.max (id r) m)
      end
  end.

(** The rowid of an AUTOINCREMENT table: one more than the largest the
    table holds and than the largest it ever held; no rowid is left
    once the largest possible one was used. *)
Definition new_rowid (d : Db) : outcome Z :=
  match last_rowid (rows d) with
  | Some m =>
      if ((MAX_ROWID <=? m) || (sqlite_sequence d =? MAX_ROWID))%bool
      then Thrown "database or disk is full"
      else Returned (Z.max (m + 1) (sqlite_sequence d + 1))
  | None =>
      if sqlite_sequence d =? MAX_ROWID
      then Thrown "database or disk is full"
      else Returned (Z.max 1 (sqlite_sequence d + 1))
  end.

Definition driver (env : Env) : outcome unit :=
  match fault env with
  | Some message => Thrown message
  | None => Returned tt
  end.

(** [db.prepare("INSERT INTO athletes (...) VALUES (?, ..., ?)").run(args)]:
    the new rowid and the database after the insertion.  The arguments
    are bound before the statement touches the database file.  A
    statement that throws leaves the database as it was. *)
Definition insert_athlete (env : Env) (d : Db) (args : list JsValue)
  : outcome (Z * Db) :=
  params <- bind_values args ;;
  _ <- driver env ;;
  rowid <- new_rowid d ;;
  let vals := store_values params in
  _ <- check_not_null insert_columns vals ;;
  _ <- check_unique insert_columns (rows d) vals ;;
  Returned (rowid,
            {| rows := rows d ++ [ {| id := rowid; fields := vals;
                                      created_at := now env |} ];
               sqlite_sequence := rowid |}).

(** ORDER BY created_at DESC over the table scan.  SQLite's sorter keeps
    rows with equal keys in the order the scan delivers them. *)
Fixpoint insert_desc (r : Row) (sorted : list Row) : list Row :=
  match sorted with
  | [] => [r]
  | x :: rest =>
      if created_at r <? created_at x then x :: insert_desc r rest
      else r :: x :: rest
  end.

Fixpoint order_by_created_at_desc (table : list Row) : list Row :=
  match table with
  | [] => []
  | r :: rest => insert_desc r (order_by_created_at_desc rest)
  end.

(** [db.prepare("SELECT * FROM athletes ORDER BY created_at DESC").all()]. *)
Definition select_athletes (env : Env) (d : Db) : outcome (list Row) :=
  _ <- driver env ;;
  Returned (order_by_created_at_desc (rows d)).

(** [WHERE id = ?] with the text of the route parameter bound to [?]: the
    text is compared as a number when it reads as one, and equals no
    integer otherwise.  The number is taken exactly, which is what SQLite
    does with the decimal text of an integer; a text with a fraction or an
    exponent SQLite first rounds to binary64. *)
Definition id_equals (param : string) (r : Row) : bool :=
  match sqlite3AtoF param with
  | Some q => Qeq_bool (inject_Z (id r)) q
  | None => false
  end.

(** [db.prepare("DELETE FROM athletes WHERE id = ?").run(req.params.id)]. *)
Definition delete_athlete (env : Env) (d : Db) (param : string) : outcome Db :=
  _ <- driver env ;;
  Returned {| rows := filter (fun r => negb (id_equals param r)) (rows d);
              sqlite_sequence := sqlite_sequence d |}.

(** ** The HTTP handlers *)

Inductive Body : Type :=
| Registered (id : Z)            (* { success: true, id } *)
| Athletes (athletes : list Row) (* the rows, as a JSON array *)
| Success                        (* { success: true } *)
| Failure (error : string).      (* { success: false, error } *)

Record Response : Type := {
  status : Z;
  body : Body
}.

(** [res.json(b)] and [res.status(500).json({ success: false, error })]. *)
Definition json (b : Body) : Response := {| status := 200; body := b |}.

Definition error_envelope (message : string) : Response :=
  {| status := 500; body := Failure message |}.

(** From this magnitude on a number has no finite binary64 value. *)
Definition DOUBLE_OVERFLOW : Q := inject_Z (2 ^ 1024 - 2 ^ 970).

(** The value of a column in the JSON object of a row.  A REAL beyond
    the range of binary64 is an infinity, which [res.json] writes as
    null. *)
Definition js_of_sql (v : SqlValue) : JsValue :=
  match v with
  | SNull => JsNull
  | SInt n => JsNumber (inject_Z n)
  | SReal q => if Qle_bool DOUBLE_OVERFLOW (Qabs q) then JsNull else JsNumber q
  | SText s => JsString s
  end.

Definition json_field (r : Row) (c : Column) : JsValue := js_of_sql (field_of r c).

(** app.post("/api/register", ...) *)
Definition post_register (env : Env) (d : Db) (data : Payload) : Response * Db :=
  match insert_athlete env d (run_args data) with
  | Returned (lastInsertRowid, d') => (json (Registered lastInsertRowid), d')
  | Thrown message => (error_envelope message, d)
  end.

(** app.get("/api/athletes", ...) *)
Definition get_athletes (env : Env) (d : Db) : Response * Db :=
  match select_athletes env d with
  | Returned athletes => (json (Athletes athletes), d)
  | Thrown message => (error_envelope message, d)
  end.

(** app.delete("/api/athletes/:id", ...) *)
Definition delete_athletes_id (env : Env) (d : Db) (param : string) : Response * Db :=
  match delete_athlete env d param with
  | Returned d' => (json Success, d')
  | Thrown message => (error_envelope message, d)
  end.

Inductive Request : Type :=
| PostRegister (data : Payload)
| GetAthletes
| DeleteAthlete (param : string). (* [req.params.id], the last path segment *)

Definition handle (env : Env) (d : Db) (req : Request) : Response * Db :=
  match req with
  | PostRegister data => post_register env d data
  | GetAthletes => get_athletes env d
  | DeleteAthlete param => delete_athletes_id env d param
  end.

(** The server handles one request after the other. *)
Fixpoint serve (d : Db) (reqs : list (Env * Request)) : list Response * Db :=
  match reqs with
  | [] => ([], d)
  | (env, req) :: rest =>
      let (resp, d1) := handle env d req in
      let (resps, d2) := serve d1 rest in
      (resp :: resps, d2)
  end.

(** The store call a handler makes throws [message]. *)
Definition store_throws (env : Env) (d : Db) (req : Request) (message : string) : Prop :=
  match req with
  | PostRegister data => insert_athlete env d (run_args data) = Thrown message
  | GetAthletes => select_athletes env d = Thrown message
  | DeleteAthlete param => delete_athlete env d param = Thrown message
  end.

(** The ids the successful registrations of a run returned, in order. *)
Fixpoint registered_ids (resps : list Response) : list Z :=
  match resps with
  | [] => []
  | {| status := _; body := Registered i |} :: rest => i :: registered_ids rest
  | _ :: rest => registered_ids rest
  end.

(** ** Notions used in the statements *)

(** The argument bound to the placeholder of column [c]. *)
Definition arg (data : Payload) (c : Column) : JsValue :=
  match c with
  | termo_aceite => JsNumber (if truthy (data termo_aceite) then 1 else 0)
  | _ => data c
  end.

Definition is_bool (v : JsValue) : bool :=
  match v with
  | JsBool _ => true
  | _ => false
  end.

(** The value takes exactly one placeholder when it is bound: it is not
    an array and not an object. *)
Definition is_scalar (v : JsValue) : bool :=
  match v with
  | JsArray _ | JsObject => false
  | _ => true
  end.

(** The driver binds the value: it is absent, null, a number or a
    string. *)
Definition bindable (v : JsValue) : bool :=
  match v with
  | JsBool _ | JsArray _ | JsObject => false
  | _ => true
  end.

(** No bound field of the payload is an array or an object (the consent
    flag is not bound itself, only the 1 or 0 computed from it). *)
Definition scalar_fields (data : Payload) : Prop :=
  forall c, c <> termo_aceite -> is_scalar (data c) = true.

Definition to_sql (v : JsValue) : SqlValue :=
  match v with
  | JsNumber q => SReal q
  | JsString s => SText s
  | _ => SNull
  end.

(** The value column [c] receives from a payload whose fields each take
    one placeholder. *)
Definition stored (data : Payload) (c : Column) : SqlValue :=
  apply_affinity (affinity c) (to_sql (arg data c)).

Definition new_row (rowid : Z) (data : Payload) (t : Z) : Row :=
  {| id := rowid;
     fields := map (fun c => (c, stored data c)) insert_columns;
     created_at := t |}.

(** The row an insertion appends, from the values bound to the
    placeholders. *)
Definition row_of (rowid : Z) (params : list SqlValue) (t : Z) : Row :=
  {| id := rowid; fields := store_values params; created_at := t |}.

(** What is bound already stays, and what is added comes from values the
    driver binds. *)
Definition extends (bound b : list SqlValue) : Prop :=
  exists xs, b = (bound ++ xs)%list /\ Forall (fun x => exists v, x = to_sql v) xs.

(** A rowid is left for the next insertion. *)
Definition has_room (d : Db) : Prop :=
  sqlite_sequence d < MAX_ROWID /\ forall r, In r (rows d) -> id r < MAX_ROWID.

(** AUTOINCREMENT bookkeeping: [sqlite_sequence] is at least every rowid
    in the table. *)
Definition within_sequence (d : Db) : Prop :=
  forall r, In r (rows d) -> id r <= sqlite_sequence d.

(** INTEGER PRIMARY KEY: no two rows share an id. *)
Definition primary_key (d : Db) : Prop := NoDup (map id (rows d)).

(** [x] occurs before [y] in [l]. *)
Definition precedes {A : Type} (x y : A) (l : list A) : Prop :=
  exists l1 l2 l3, l = (l1 ++ x :: l2 ++ y :: l3)%list.

(** The payload has the types of the client's form data: a string in
    every field but the consent flag, which is a boolean. *)
Definition form_typed (data : Payload) : Prop :=
  (forall c, c <> termo_aceite -> exists s, data c = JsString s)
  /\ exists b, data termo_aceite = JsBool b.

(** Newest first: the order of two neighbours in a listing. *)
Definition not_older (a b : Row) : Prop := created_at b <= created_at a.

(** The number a digit sequence denotes, read from the left onto [acc],
    and its length. *)
Fixpoint horner (acc : Z) (u : Decimal.uint) : Z :=
  match u with
  | Decimal.Nil => acc
  | Decimal.D0 u => horner (acc * 10) u
  | Decimal.D1 u => horner (acc * 10 + 1) u
  | Decimal.D2 u => horner (acc * 10 + 2) u
  | Decimal.D3 u => horner (acc * 10 + 3) u
  | Decimal.D4 u => horner (acc * 10 + 4) u
  | Decimal.D5 u => horner (acc * 10 + 5) u
  | Decimal.D6 u => horner (acc * 10 + 6) u
  | Decimal.D7 u => horner (acc * 10 + 7) u
  | Decimal.D8 u => horner (acc * 10 + 8) u
  | Decimal.D9 u => horner (acc * 10 + 9) u
  end.

Fixpoint digit_count (u : Decimal.uint) : Z :=
  match u with
  | Decimal.Nil => 0
  | Decimal.D0 u | Decimal.D1 u | Decimal.D2 u | Decimal.D3 u | Decimal.D4 u
  | Decimal.D5 u | Decimal.D6 u | Decimal.D7 u | Decimal.D8 u | Decimal.D9 u =>
      digit_count u + 1
  end.

(** ** Scenario data *)

Definition quiet (t : Z) : Env := {| now := t; fault := None |}.

(** Only the two NOT NULL columns are present. *)
Definition minimal (name national_id : string) : Payload :=
  fun c =>
    match c with
    | nome_completo => JsString name
    | cpf => JsString national_id
    | _ => JsUndefined
    end.

(** The form's initial data with name, national identifier, weight and
    consent filled in. *)
Definition form (name national_id weight : string) (consent : bool) : Payload :=
  fun c =>
    match c with
    | nome_completo => JsString name
    | cpf => JsString national_id
    | peso => JsString weight
    | sexo => JsString "Masculino"
    | altura => JsString "1.75"
    | lado_dominante => JsString "Destro"
    | graduacao_faixa => JsString "Branca"
    | turno_estudo => JsString "Manhã"
    | termo_aceite => JsBool consent
    | _ => JsString ""
    end.

(** The scenario of the specification: Ana Silva, national identifier
    111, registers first. *)
Definition ana : Payload := form "Ana Silva" "111" "70" true.

Definition ana_db : Db := snd (post_register (quiet 100) empty_db ana).

Definition ana_row : Row := new_row 1 ana 100.

(** A request during which the database file is locked. *)
Definition locked (t : Z) : Env := {| now := t; fault := Some "database is locked" |}.

(** The same-second scenario: Bia registers within the second in which
    Ana did. *)
Definition bia : Payload := minimal "Bia" "222".

Definition same_second_db : Db :=
  snd (serve empty_db [(quiet 100, PostRegister ana); (quiet 100, PostRegister bia)]).

Definition bia_row : Row := new_row 2 bia 100.

(** A session: Bia registers after Ana, is deleted, Caio registers, and
    the table is listed. *)
Definition caio : Payload := minimal "Caio" "333".

Definition session : list (Env * Request) :=
  [ (quiet 101, PostRegister bia);
    (quiet 102, DeleteAthlete "2");
    (quiet 103, PostRegister caio);
    (quiet 104, GetAthletes) ].

(** ** Table invariants *)

(** What a column may hold, given its declared type and NOT NULL: a TEXT
    column holds text (or NULL where allowed), a REAL column NULL, a
    number or text that does not read as a number, the consent column the
    integer 0 or 1. *)
Definition column_typed (c : Column) (v : SqlValue) : Prop :=
  match affinity c with
  | AffText => (not_null c = false /\ v = SNull) \/ exists s, v = SText s
  | AffReal =>
      v = SNull \/ (exists q, v = SReal q)
      \/ (exists s, v = SText s /\ sqlite3AtoF s = None)
  | AffInteger => v = SInt 0 \/ v = SInt 1
  end.

Definition row_typed (r : Row) : Prop := forall c, column_typed c (field_of r c).

Definition table_typed (d : Db) : Prop := Forall row_typed (rows d).

(** The UNIQUE index on [cpf]: no value occurs in two rows. *)
Definition cpf_key (d : Db) : Prop := NoDup (map (fun r => field_of r cpf) (rows d)).

(** [start; start + 1; ...], [n] numbers. *)
Fixpoint count_from (start : Z) (n : nat) : list Z :=
  match n with
  | O => []
  | S k => start :: count_from (start + 1) k
  end.

(** ** The client: the App component

    The component's state and what it does on each event: a user action
    on an element it renders, or the completion of a request it sent.
    Events for elements that are not rendered leave the state alone.
    [toLowerCase] is JavaScript's String.prototype.toLowerCase, taken as
    given. *)

Inductive View : Type := FormView | AdminView | SuccessView.

(** The state variables of [App].  [athletes] is whatever the last
    GET /api/athletes answered: [setAthletes(data)] stores the parsed
    body without looking at it. *)
Record App : Type := {
  view : View;
  step : Z;
  formData : Payload;
  athletes : Body;
  loading : bool;
  searchTerm : string
}.

Definition INITIAL_DATA : Payload :=
  fun c =>
    match c with
    | sexo => JsString "Masculino"
    | altura => JsString "1.75"
    | lado_dominante => JsString "Destro"
    | graduacao_faixa => JsString "Branca"
    | turno_estudo => JsString "Manhã"
    | termo_aceite => JsBool false
    | _ => JsString ""
    end.

Definition initial_app : App :=
  {| view := FormView; step := 1; formData := INITIAL_DATA;
     athletes := Athletes []; loading := false; searchTerm := "" |}.

(** [{ ...prev, [name]: val }] *)
Definition set_field (prev : Payload) (name : Column) (val : JsValue) : Payload :=
  fun c => if Column_beq c name then val else prev c.

(** The step on which the Input or Select named [c] is rendered.  The
    photo and the consent flag have inputs of their own. *)
Definition input_step (c : Column) : option Z :=
  match c with
  | nome_completo | cpf | data_nascimento | sexo | whatsapp | peso | altura
  | tam_kimono | num_calcado | lado_dominante | graduacao_faixa | numero_nis => Some 1
  | logradouro | numero | bairro | cidade | uf => Some 2
  | escola | serie_ano | turno_estudo => Some 3
  | restricao_medica | possui_alergias | tipo_sanguineo
  | contato_emergencia_nome | contato_emergencia_tel => Some 4
  | responsavel_legal | responsavel_cpf => Some 5
  | foto_url | termo_aceite => None
  end.

(** [s.includes(t)] *)
Fixpoint includes (s t : string) : bool :=
  if String.prefix t s then true
  else match s with
       | EmptyString => false
       | String _ rest => includes rest t
       end.

Inductive Event : Type :=
| InputChange (name : Column) (value : string) (* onChange of an Input or Select *)
| CheckboxChange (checked : bool)              (* onChange of the consent checkbox *)
| PhotoLoaded (result : option string)         (* reader.onloadend; None: the read failed *)
| ClickNext
| ClickBack
| ClickToggleView
| ClickNewRegistration
| SearchChange (term : string)
| ClickRefresh
| ClickDelete (id : Z) (confirmed : bool)      (* the answer to confirm(...) *)
| SubmitSettled (response : option Response)   (* None: the fetch was rejected *)
| FetchSettled (response : option Response)
| DeleteSettled (resolved : bool).

Inductive Effect : Type :=
| Send (req : Request)
| Alert (message : string).

Section Client.
Variable toLowerCase : string -> string.

(** The predicate of [athletes.filter(...)]: a name or a [cpf] that is
    not a string has no such method. *)
Definition matches (term : string) (a : Row) : outcome bool :=
  match json_field a nome_completo with
  | JsString name =>
      if includes (toLowerCase name) (toLowerCase term) then Returned true
      else
        match json_field a cpf with
        | JsString national_id => Returned (includes national_id term)
        | JsNull => Thrown "Cannot read properties of null (reading 'includes')"
        | JsUndefined => Thrown "Cannot read properties of undefined (reading 'includes')"
        | _ => Thrown "a.cpf.includes is not a function"
        end
  | JsNull => Thrown "Cannot read properties of null (reading 'toLowerCase')"
  | JsUndefined => Thrown "Cannot read properties of undefined (reading 'toLowerCase')"
  | _ => Thrown "a.nome_completo.toLowerCase is not a function"
  end.

Fixpoint filter_athletes (term : string) (l : list Row) : outcome (list Row) :=
  match l with
  | [] => Returned []
  | a :: rest =>
      keep <- matches term a ;;
      kept <- filter_athletes term rest ;;
      Returned (if keep then a :: kept else kept)
  end.

(** [const filteredAthletes = athletes.filter(...)], computed on every
    render. *)
Definition filteredAthletes (app : App) : outcome (list Row) :=
  match athletes app with
  | Athletes l => filter_athletes (searchTerm app) l
  | _ => Thrown "athletes.filter is not a function"
  end.

(** Something is on the screen: the render did not throw. *)
Definition renders (app : App) : bool :=
  match filteredAthletes app with
  | Returned _ => true
  | Thrown _ => false
  end.

(** [disabled] of the forward button. *)
Definition next_disabled (app : App) : bool :=
  (loading app || ((step app =? 5) && negb (truthy (formData app termo_aceite))))%bool.

(** A delete button is rendered for [id]. *)
Definition delete_shown (app : App) (i : Z) : bool :=
  match view app, loading app, filteredAthletes app with
  | AdminView, false, Returned l => existsb (fun a => id a =? i) l
  | _, _, _ => false
  end.

Definition with_form (app : App) (fd : Payload) : App :=
  {| view := view app; step := step app; formData := fd;
     athletes := athletes app; loading := loading app; searchTerm := searchTerm app |}.

Definition with_step (app : App) (s : Z) : App :=
  {| view := view app; step := s; formData := formData app;
     athletes := athletes app; loading := loading app; searchTerm := searchTerm app |}.

Definition with_view (app : App) (v : View) : App :=
  {| view := v; step := step app; formData := formData app;
     athletes := athletes app; loading := loading app; searchTerm := searchTerm app |}.

Definition with_loading (app : App) (l : bool) : App :=
  {| view := view app; step := step app; formData := formData app;
     athletes := athletes app; loading := l; searchTerm := searchTerm app |}.

(** [fetchAthletes()] up to its [await]. *)
Definition fetchAthletes (app : App) : App * list Effect :=
  (with_loading app true, [Send GetAthletes]).

(** [handleSubmit()] up to its [await]. *)
Definition handleSubmit (app : App) : App * list Effect :=
  (with_loading app true, [Send (PostRegister (formData app))]).

(** What the component does on one event. *)
Definition react (app : App) (e : Event) : App * list Effect :=
  match e with
  | InputChange name value =>
      match view app, input_step name with
      | FormView, Some s =>
          if (renders app && (step app =? s))%bool
          then (with_form app (set_field (formData app) name (JsString value)), [])
          else (app, [])
      | _, _ => (app, [])
      end
  | CheckboxChange checked =>
      match view app with
      | FormView =>
          if (renders app && (step app =? 5))%bool
          then (with_form app (set_field (formData app) termo_aceite (JsBool checked)), [])
          else (app, [])
      | _ => (app, [])
      end
  | PhotoLoaded (Some result) =>
      (with_form app (set_field (formData app) foto_url (JsString result)), [])
  | PhotoLoaded None =>
      (with_form app (set_field (formData app) foto_url JsNull), [])
  | ClickNext =>
      match view app with
      | FormView =>
          if (renders app && negb (next_disabled app))%bool
          then if step app <? 5 then (with_step app (step app + 1), [])
               else handleSubmit app
          else (app, [])
      | _ => (app, [])
      end
  | ClickBack =>
      match view app with
      | FormView =>
          if (renders app && (1 <? step app))%bool
          then (with_step app (step app - 1), [])
          else (app, [])
      | _ => (app, [])
      end
  | ClickToggleView =>
      if renders app then
        match view app with
        | AdminView => (with_view app FormView, [])
        | FormView => fetchAthletes (with_view app AdminView)
        | SuccessView => (app, [])
        end
      else (app, [])
  | ClickNewRegistration =>
      match view app with
      | SuccessView =>
          if renders app
          then ({| view := FormView; step := 1; formData := INITIAL_DATA;
                   athletes := athletes app; loading := loading app;
                   searchTerm := searchTerm app |}, [])
          else (app, [])
      | _ => (app, [])
      end
  | SearchChange term =>
      match view app with
      | AdminView =>
          if renders app
          then ({| view := view app; step := step app; formData := formData app;
                   athletes := athletes app; loading := loading app;
                   searchTerm := term |}, [])
          else (app, [])
      | _ => (app, [])
      end
  | ClickRefresh =>
      match view app with
      | AdminView => if renders app then fetchAthletes app else (app, [])
      | _ => (app, [])
      end
  | ClickDelete i confirmed =>
      if (delete_shown app i && confirmed)%bool
      then (app, [Send (DeleteAthlete (int_to_text i))])
      else (app, [])
  | SubmitSettled (Some response) =>
      match body response with
      | Registered _ | Success => (with_loading (with_view app SuccessView) false, [])
      | Failure error => (with_loading app false, [Alert ("Erro ao cadastrar: " ++ error)])
      | Athletes _ => (with_loading app false, [Alert "Erro ao cadastrar: undefined"])
      end
  | SubmitSettled None => (with_loading app false, [Alert "Erro de conexão"])
  | FetchSettled (Some response) =>
      ({| view := view app; step := step app; formData := formData app;
          athletes := body response; loading := false;
          searchTerm := searchTerm app |}, [])
  | FetchSettled None => (with_loading app false, [])
  | DeleteSettled true => fetchAthletes app
  | DeleteSettled false => (app, [])
  end.

(** A sequence of events, from the oldest on; the effects in order. *)
Fixpoint run (app : App) (events : list Event) : App * list Effect :=
  match events with
  | [] => (app, [])
  | e :: rest =>
      let (app1, effects1) := react app e in
      let (app2, effects2) := run app1 rest in
      (app2, (effects1 ++ effects2)%list)
  end.

(** The user presses the forward button, the server handles what the
    component sends, and the component gets the answer. *)
Definition submit_round (env : Env) (app : App) (d : Db)
  : App * list Effect * Db :=
  match react app ClickNext with
  | (app1, [Send req]) =>
      let (response, d1) := handle env d req in
      let (app2, effects) := react app1 (SubmitSettled (Some response)) in
      (app2, effects, d1)
  | (app1, _) => (app1, [], d)
  end.

(** The user confirms the deletion of athlete [i]; the server deletes,
    the component asks for the list again and stores the answer. *)
Definition delete_round (env env' : Env) (app : App) (d : Db) (i : Z) : App * Db :=
  match react app (ClickDelete i true) with
  | (app1, [Send req]) =>
      let (_, d1) := handle env d req in
      let (app2, _) := react app1 (DeleteSettled true) in
      let (response, d2) := handle env' d1 GetAthletes in
      (fst (react app2 (FetchSettled (Some response))), d2)
  | (app1, _) => (app1, d)
  end.

End Client.

(** What the form holds: a string in every field, except that the photo
    may be null (a failed read) and the consent flag is a boolean. *)
Definition form_shaped (data : Payload) : Prop :=
  (forall c, c <> termo_aceite -> c <> foto_url -> exists s, data c = JsString s)
  /\ (data foto_url = JsNull \/ exists s, data foto_url = JsString s)
  /\ exists b, data termo_aceite = JsBool b.

(** The registrations among the effects. *)
Fixpoint submissions (effects : list Effect) : list Payload :=
  match effects with
  | [] => []
  | Send (PostRegister data) :: rest => data :: submissions rest
  | _ :: rest => submissions rest
  end.

(** The wizard is on one of its five steps and holds form-shaped data. *)
Definition app_ok (app : App) : Prop :=
  1 <= step app <= 5 /\ form_shaped (formData app).

(** The athlete is kept by the search. *)
Definition shown (toLowerCase : string -> string) (term : string) (a : Row) : bool :=
  match matches toLowerCase term a with
  | Returned keep => keep
  | Thrown _ => false
  end.

(** Lower case of the ASCII letters; other characters are left alone. *)
Definition ascii_lower (c : ascii) : ascii :=
  let n := N_of_ascii c in
  if ((65 <=? n) && (n <=? 90))%N then ascii_of_N (n + 32) else c.

Fixpoint ascii_toLowerCase (s : string) : string :=
  match s with
  | EmptyString => EmptyString
  | String c rest => String (ascii_lower c) (ascii_toLowerCase rest)
  end.

(** Scenario: the user goes to the last step and ticks the consent box;
    and the admin view with the two same-second athletes loaded. *)
Definition at_last_step : App :=
  fst (run ascii_toLowerCase initial_app
         [ClickNext; ClickNext; ClickNext; ClickNext; CheckboxChange true]).

Definition admin_app : App :=
  fst (run ascii_toLowerCase initial_app
         [ClickToggleView;
          FetchSettled (Some (fst (get_athletes (quiet 101) same_second_db)))]).

(** Two bodies with arrays where the form has strings:
    [{ nome_completo: [], cpf: "111", data_nascimento: ["x", "y"] }] and
    [{ nome_completo: ["Ana", "111"], uf: [] }], and the rows the store
    makes of them. *)
Definition two_birth_dates : Payload :=
  fun c =>
    match c with
    | nome_completo => JsArray []
    | cpf => JsString "111"
    | data_nascimento => JsArray [JsString "x"; JsString "y"]
    | _ => JsUndefined
    end.

Definition two_birth_dates_row : Row :=
  row_of 2 (SText "111" :: SText "x" :: SText "y" :: repeat SNull 25 ++ [SReal 0]) 101.

Definition two_names : Payload :=
  fun c =>
    match c with
    | nome_completo => JsArray [JsString "Ana"; JsString "111"]
    | uf => JsArray []
    | _ => JsUndefined
    end.

Definition two_names_row : Row :=
  row_of 1 (SText "Ana" :: SText "111" :: repeat SNull 26 ++ [SReal 0]) 100.

(** * Properties *)

(** ** The INSERT statement, step by step *)

Lemma run_args_arg (data : Payload) : run_args data = map (arg data) insert_columns.
Proof. reflexivity. Qed.

Lemma run_args_snoc (data : Payload) :
  run_args data
  = (map data (removelast insert_columns)
     ++ [JsNumber (if truthy (data termo_aceite) then 1 else 0)])%list.
Proof. reflexivity. Qed.

(** *** Binding *)

Lemma bind_value_inv (v : JsValue) (x : SqlValue) :
  bind_value v = Returned x -> x = to_sql v /\ bindable v = true.
Proof.
  destruct v; cbn; intros H; try discriminate; injection H as <-; split; reflexivity.
Qed.

Lemma bind_next_inv (bound : list SqlValue) (v : JsValue) (b : list SqlValue) :
  bind_next bound v = Returned b ->
  b = (bound ++ [to_sql v])%list /\ bindable v = true.
Proof.
  unfold bind_next. destruct (bind_value v) as [x|m] eqn:E; [|discriminate].
  cbn [bind]. destruct (Nat.leb _ _); [discriminate|].
  intros H. injection H as <-. apply bind_value_inv in E. destruct E as [-> Hb].
  split; [reflexivity|exact Hb].
Qed.

Lemma bind_next_room (bound : list SqlValue) (v : JsValue) :
  (List.length bound < List.length insert_columns)%nat ->
  bind_next bound v =
  if bindable v then Returned (bound ++ [to_sql v])%list
  else Thrown "SQLite3 can only bind numbers, strings, bigints, buffers, and null".
Proof.
  intros Hlen. unfold bind_next.
  replace (List.length insert_columns <=? List.length bound)%nat with false
    by (symmetry; apply Nat.leb_gt; exact Hlen).
  destruct v; reflexivity.
Qed.

Lemma extends_refl (bound : list SqlValue) : extends bound bound.
Proof. exists []. split; [now rewrite app_nil_r|constructor]. Qed.

Lemma extends_trans (a b c : list SqlValue) : extends a b -> extends b c -> extends a c.
Proof.
  intros (xs & -> & Hxs) (ys & -> & Hys). exists (xs ++ ys)%list.
  split; [now rewrite app_assoc|]. apply Forall_app. split; assumption.
Qed.

Lemma bind_next_extends (bound : list SqlValue) (v : JsValue) (b : list SqlValue) :
  bind_next bound v = Returned b -> extends bound b.
Proof.
  intros H. apply bind_next_inv in H. destruct H as [-> _].
  exists [to_sql v]. split; [reflexivity|]. constructor; [|constructor]. now exists v.
Qed.

Lemma bind_array_extends (items : list JsValue) (bound b : list SqlValue) :
  bind_array items bound = Returned b -> extends bound b.
Proof.
  revert bound. induction items as [|v items IH]; intros bound H; cbn in H.
  - injection H as <-. apply extends_refl.
  - destruct (bind_next bound v) as [b1|m] eqn:E; [|discriminate].
    cbn [bind] in H. apply bind_next_extends in E.
    exact (extends_trans _ _ _ E (IH _ H)).
Qed.

(** One argument of [run] that is not an array and not an object takes
    the next placeholder. *)
Lemma bind_args_scalar_cons (v : JsValue) (rest : list JsValue)
    (bound : list SqlValue) (bound_object : bool) :
  is_scalar v = true ->
  bind_args (v :: rest) bound bound_object
  = (b <- bind_next bound v ;; bind_args rest b bound_object).
Proof. destruct v; intros H; try reflexivity; discriminate. Qed.

Lemma bind_args_extends (args : list JsValue) (bound : list SqlValue)
    (bound_object : bool) (b : list SqlValue) :
  bind_args args bound bound_object = Returned b -> extends bound b.
Proof.
  revert bound bound_object.
  induction args as [|v args IH]; intros bound bo H.
  - cbn in H. injection H as <-. apply extends_refl.
  - destruct v as [| |x|q|s|items|].
    6: { cbn [bind_args] in H.
         destruct (bind_array items bound) as [b1|m] eqn:E; [|discriminate].
         cbn [bind] in H. apply bind_array_extends in E.
         exact (extends_trans _ _ _ E (IH _ _ H)). }
    6: { cbn [bind_args] in H. destruct bo; [discriminate|]. exact (IH _ _ H). }
    all: rewrite bind_args_scalar_cons in H by reflexivity;
      destruct (bind_next bound _) as [b1|m] eqn:E; [|discriminate];
      cbn [bind] in H; apply bind_next_extends in E;
      exact (extends_trans _ _ _ E (IH _ _ H)).
Qed.

(** A boolean among the arguments is never bound. *)
Lemma bind_args_bool (args : list JsValue) (x : bool) :
  In (JsBool x) args ->
  forall bound bound_object, exists message,
    bind_args args bound bound_object = Thrown message.
Proof.
  induction args as [|v args IH]; intros Hin bound bo; [contradiction|].
  destruct Hin as [->|Hin].
  - rewrite bind_args_scalar_cons by reflexivity. eexists. reflexivity.
  - destruct v as [| |y|q|s|items|].
    6: { cbn [bind_args]. destruct (bind_array items bound) as [b1|m];
           [cbn [bind]; apply IH, Hin|eexists; reflexivity]. }
    6: { cbn [bind_args]. destruct bo; [eexists; reflexivity|apply IH, Hin]. }
    all: rewrite bind_args_scalar_cons by reflexivity;
      (destruct (bind_next bound _) as [b1|m];
       [cbn [bind]; apply IH, Hin|eexists; reflexivity]).
Qed.

(** The last argument, when it is a number, is the last value bound. *)
Lemma bind_args_last (front : list JsValue) (q : Q) (bound : list SqlValue)
    (bound_object : bool) (b : list SqlValue) :
  bind_args (front ++ [JsNumber q]) bound bound_object = Returned b ->
  exists pre, b = (pre ++ [SReal q])%list.
Proof.
  revert bound bound_object.
  induction front as [|v front IH]; intros bound bo H.
  - cbn [app] in H. rewrite bind_args_scalar_cons in H by reflexivity.
    destruct (bind_next bound (JsNumber q)) as [b1|m] eqn:E; [|discriminate].
    cbn in H. injection H as <-. apply bind_next_inv in E. destruct E as [-> _].
    now exists bound.
  - cbn [app] in H. destruct v as [| |y|x|s|items|].
    6: { cbn [bind_args] in H.
         destruct (bind_array items bound) as [b1|m]; [|discriminate].
         exact (IH _ _ H). }
    6: { cbn [bind_args] in H. destruct bo; [discriminate|]. exact (IH _ _ H). }
    all: rewrite bind_args_scalar_cons in H by reflexivity;
      destruct (bind_next bound _) as [b1|m]; [|discriminate];
      exact (IH _ _ H).
Qed.

(** Arguments none of which is an array or an object are bound one to
    one. *)
Lemma bind_args_scalars (args : list JsValue) (bound : list SqlValue)
    (bound_object : bool) :
  Forall (fun v => is_scalar v = true) args ->
  (List.length bound + List.length args <= List.length insert_columns)%nat ->
  bind_args args bound bound_object =
  if existsb is_bool args
  then Thrown "SQLite3 can only bind numbers, strings, bigints, buffers, and null"
  else Returned (bound ++ map to_sql args)%list.
Proof.
  revert bound.
  induction args as [|v args IH]; intros bound Hs Hlen.
  - cbn. now rewrite app_nil_r.
  - inversion Hs as [|? ? Hv Hrest]; subst.
    rewrite (bind_args_scalar_cons _ _ _ _ Hv).
    cbn [List.length] in Hlen.
    rewrite bind_next_room by lia.
    destruct v; try discriminate; cbn [bindable is_bool existsb orb bind to_sql map];
      try reflexivity;
      (rewrite IH; [|exact Hrest|rewrite length_app; cbn [List.length]; lia]);
      destruct (existsb is_bool args); try reflexivity;
      now rewrite <- app_assoc.
Qed.

Lemma bind_values_inv (args : list JsValue) (params : list SqlValue) :
  bind_values args = Returned params ->
  bind_args args [] false = Returned params
  /\ List.length params = List.length insert_columns
  /\ Forall (fun x => exists v, x = to_sql v) params.
Proof.
  unfold bind_values. destruct (bind_args args [] false) as [b|m] eqn:E; [|discriminate].
  cbn [bind]. destruct (Nat.eqb _ _) eqn:El.
  - intros H. injection H as <-. apply Nat.eqb_eq in El.
    refine (conj eq_refl (conj El _)).
    apply bind_args_extends in E. destruct E as (xs & -> & Hxs). exact Hxs.
  - destruct (Nat.ltb _ _); discriminate.
Qed.

Lemma scalar_args (data : Payload) :
  scalar_fields data -> Forall (fun v => is_scalar v = true) (run_args data).
Proof.
  intros H. unfold run_args.
  repeat (constructor; [first [apply H; discriminate | reflexivity]|]).
  constructor.
Qed.

Lemma bind_values_scalar (data : Payload) :
  scalar_fields data ->
  bind_values (run_args data) =
  if existsb is_bool (run_args data)
  then Thrown "SQLite3 can only bind numbers, strings, bigints, buffers, and null"
  else Returned (map to_sql (run_args data)).
Proof.
  intros H. unfold bind_values.
  rewrite (bind_args_scalars _ [] false (scalar_args data H)) by (cbn; lia).
  destruct (existsb is_bool (run_args data)); reflexivity.
Qed.

(** A first argument that is not an array or an object is bound to the
    first placeholder, and a second one to the second, whatever the
    arguments after them are. *)
Lemma bind_values_first (v : JsValue) (rest : list JsValue) (params : list SqlValue) :
  bind_values (v :: rest) = Returned params ->
  is_scalar v = true ->
  exists tl, params = to_sql v :: tl.
Proof.
  intros H Hv. apply bind_values_inv in H. destruct H as (H & _ & _).
  rewrite (bind_args_scalar_cons _ _ _ _ Hv) in H.
  destruct (bind_next [] v) as [b1|m] eqn:E1; [|discriminate].
  cbn [bind] in H. apply bind_next_inv in E1. destruct E1 as [-> _].
  apply bind_args_extends in H. destruct H as (xs & -> & _).
  now exists xs.
Qed.

Lemma bind_values_second (v w : JsValue) (rest : list JsValue) (params : list SqlValue) :
  bind_values (v :: w :: rest) = Returned params ->
  is_scalar v = true ->
  is_scalar w = true ->
  exists tl, params = to_sql v :: to_sql w :: tl.
Proof.
  intros H Hv Hw. apply bind_values_inv in H. destruct H as (H & _ & _).
  rewrite (bind_args_scalar_cons _ _ _ _ Hv) in H.
  destruct (bind_next [] v) as [b1|m] eqn:E1; [|discriminate].
  cbn [bind] in H. apply bind_next_inv in E1. destruct E1 as [-> _].
  rewrite (bind_args_scalar_cons _ _ _ _ Hw) in H.
  destruct (bind_next _ w) as [b2|m] eqn:E2; [|discriminate].
  cbn [bind] in H. apply bind_next_inv in E2. destruct E2 as [-> _].
  apply bind_args_extends in H. destruct H as (xs & -> & _).
  now exists xs.
Qed.

Lemma run_args_cons (data : Payload) :
  run_args data = data nome_completo :: data cpf :: skipn 2 (run_args data).
Proof. reflexivity. Qed.

(** With a name that is not an array or an object, the name and the
    [cpf] are bound to their own placeholders, whatever the other fields
    are. *)
Lemma bound_first (data : Payload) (params : list SqlValue) :
  bind_values (run_args data) = Returned params ->
  is_scalar (data nome_completo) = true ->
  exists rest, params = to_sql (data nome_completo) :: rest.
Proof.
  intros H Hn. rewrite run_args_cons in H.
  exact (bind_values_first _ _ _ H Hn).
Qed.

Lemma bound_second (data : Payload) (params : list SqlValue) :
  bind_values (run_args data) = Returned params ->
  is_scalar (data nome_completo) = true ->
  is_scalar (data cpf) = true ->
  exists rest, params = to_sql (data nome_completo) :: to_sql (data cpf) :: rest.
Proof.
  intros H Hn Hc. rewrite run_args_cons in H.
  exact (bind_values_second _ _ _ _ H Hn Hc).
Qed.

(** The value bound to the last placeholder is the 1 or 0 of the consent
    flag, and the INTEGER column keeps it as that integer. *)
Lemma value_of_last (pre : list SqlValue) (x : SqlValue) :
  List.length (pre ++ [x]) = List.length insert_columns ->
  value_of (store_values (pre ++ [x])) termo_aceite = apply_affinity AffInteger x.
Proof.
  rewrite length_app. cbn [List.length insert_columns]. intros H.
  do 28 (destruct pre as [|? pre]; [cbn in H; lia|]).
  destruct pre; [reflexivity|cbn in H; lia].
Qed.

Lemma consent_bound (data : Payload) (params : list SqlValue) :
  bind_values (run_args data) = Returned params ->
  value_of (store_values params) termo_aceite
  = SInt (if truthy (data termo_aceite) then 1 else 0).
Proof.
  intros H. apply bind_values_inv in H. destruct H as (H & Hlen & _).
  rewrite run_args_snoc in H. apply bind_args_last in H. destruct H as (pre & ->).
  rewrite (value_of_last _ _ Hlen).
  destruct (truthy (data termo_aceite)); reflexivity.
Qed.

(** *** Storing *)

Lemma store_values_map (g : Column -> SqlValue) (cols : list Column) :
  map (fun p => (fst p, apply_affinity (affinity (fst p)) (snd p)))
      (combine cols (map g cols))
  = map (fun c => (c, apply_affinity (affinity c) (g c))) cols.
Proof.
  induction cols as [|c cols IH]; simpl; [reflexivity|].
  now rewrite IH.
Qed.

Lemma stored_values (data : Payload) :
  store_values (map to_sql (run_args data))
  = map (fun c => (c, stored data c)) insert_columns.
Proof.
  rewrite run_args_arg, map_map. unfold store_values.
  exact (store_values_map (fun c => to_sql (arg data c)) insert_columns).
Qed.

Lemma value_of_tabulate (h : Column -> SqlValue) (c : Column) :
  value_of (map (fun c => (c, h c)) insert_columns) c = h c.
Proof. destruct c; reflexivity. Qed.

Lemma field_of_new_row (i : Z) (data : Payload) (t : Z) (c : Column) :
  field_of (new_row i data t) c = stored data c.
Proof. exact (value_of_tabulate (stored data) c). Qed.

Lemma field_of_row_of (i : Z) (params : list SqlValue) (t : Z) (c : Column) :
  field_of (row_of i params t) c = value_of (store_values params) c.
Proof. reflexivity. Qed.

Lemma row_of_new_row (i : Z) (data : Payload) (t : Z) :
  row_of i (map to_sql (run_args data)) t = new_row i data t.
Proof. unfold row_of, new_row. now rewrite stored_values. Qed.

(** A column holds the value bound to its placeholder, converted by the
    column's affinity; the value is one the driver binds, or NULL. *)
Lemma value_of_store_values (params : list SqlValue) (c : Column) :
  Forall (fun x => exists v, x = to_sql v) params ->
  exists v, value_of (store_values params) c = apply_affinity (affinity c) (to_sql v).
Proof.
  unfold store_values, value_of, field_of. cbn [fields].
  generalize insert_columns. intros cols. revert params.
  induction cols as [|k cols IH]; intros params Hp.
  - exists JsNull. cbn. destruct (affinity c); reflexivity.
  - destruct params as [|x params];
      [exists JsNull; cbn; destruct (affinity c); reflexivity|].
    inversion Hp as [|? ? [v ->] Hrest]; subst.
    cbn [combine map find fst snd].
    destruct (Column_beq k c) eqn:E.
    + exists v. cbn [snd].
      assert (k = c) as -> by (destruct k, c; (reflexivity || discriminate)).
      reflexivity.
    + apply IH, Hrest.
Qed.

Lemma check_not_null_eq (vals : list (Column * SqlValue)) :
  check_not_null insert_columns vals =
  match value_of vals nome_completo with
  | SNull => Thrown "NOT NULL constraint failed: athletes.nome_completo"
  | _ =>
      match value_of vals cpf with
      | SNull => Thrown "NOT NULL constraint failed: athletes.cpf"
      | _ => Returned tt
      end
  end.
Proof.
  cbn [check_not_null insert_columns not_null column_name append].
  destruct (value_of vals nome_completo); try reflexivity;
    destruct (value_of vals cpf); reflexivity.
Qed.

Lemma check_unique_eq (table : list Row) (vals : list (Column * SqlValue)) :
  check_unique insert_columns table vals =
  if existsb (fun r => sql_equal (field_of r cpf) (value_of vals cpf)) table
  then Thrown "UNIQUE constraint failed: athletes.cpf"
  else Returned tt.
Proof. reflexivity. Qed.

(** The statement after the binding, as one cascade of checks. *)
Lemma insert_athlete_bound (env : Env) (d : Db) (args : list JsValue)
    (params : list SqlValue) :
  bind_values args = Returned params ->
  insert_athlete env d args =
  match fault env with
  | Some message => Thrown message
  | None =>
      match new_rowid d with
      | Thrown message => Thrown message
      | Returned rowid =>
          match value_of (store_values params) nome_completo with
          | SNull => Thrown "NOT NULL constraint failed: athletes.nome_completo"
          | _ =>
              match value_of (store_values params) cpf with
              | SNull => Thrown "NOT NULL constraint failed: athletes.cpf"
              | _ =>
                  if existsb (fun r => sql_equal (field_of r cpf)
                                         (value_of (store_values params) cpf))
                             (rows d)
                  then Thrown "UNIQUE constraint failed: athletes.cpf"
                  else Returned
                         (rowid,
                          {| rows := rows d ++ [row_of rowid params (now env)];
                             sqlite_sequence := rowid |})
              end
          end
      end
  end.
Proof.
  intros Hb. unfold insert_athlete, driver. rewrite Hb. cbn [bind].
  destruct (fault env); [reflexivity|].
  cbn [bind]. destruct (new_rowid d) as [rowid|m]; [|reflexivity].
  cbn [bind]. rewrite check_not_null_eq, check_unique_eq.
  destruct (value_of (store_values params) nome_completo); try reflexivity;
    destruct (value_of (store_values params) cpf); try reflexivity;
    cbn [bind]; unfold row_of;
    match goal with |- context [existsb ?f ?l] => destruct (existsb f l) end;
    reflexivity.
Qed.

(** The whole statement, for a payload whose fields each take one
    placeholder. *)
Lemma insert_athlete_eq (env : Env) (d : Db) (data : Payload) :
  scalar_fields data ->
  insert_athlete env d (run_args data) =
  if existsb is_bool (run_args data)
  then Thrown "SQLite3 can only bind numbers, strings, bigints, buffers, and null"
  else
    match fault env with
    | Some message => Thrown message
    | None =>
        match new_rowid d with
        | Thrown message => Thrown message
        | Returned rowid =>
            match stored data nome_completo with
            | SNull => Thrown "NOT NULL constraint failed: athletes.nome_completo"
            | _ =>
                match stored data cpf with
                | SNull => Thrown "NOT NULL constraint failed: athletes.cpf"
                | _ =>
                    if existsb (fun r => sql_equal (field_of r cpf) (stored data cpf))
                               (rows d)
                    then Thrown "UNIQUE constraint failed: athletes.cpf"
                    else Returned
                           (rowid,
                            {| rows := rows d ++ [new_row rowid data (now env)];
                               sqlite_sequence := rowid |})
                end
            end
        end
    end.
Proof.
  intros Hs. pose proof (bind_values_scalar data Hs) as Hb.
  destruct (existsb is_bool (run_args data)).
  - unfold insert_athlete. rewrite Hb. reflexivity.
  - rewrite (insert_athlete_bound env d _ _ Hb).
    destruct (fault env); [reflexivity|].
    destruct (new_rowid d) as [rowid|m]; [|reflexivity].
    rewrite row_of_new_row, stored_values, !value_of_tabulate. reflexivity.
Qed.

(** ** Rowids *)

Lemma last_rowid_None (t : list Row) : last_rowid t = None -> t = [].
Proof.
  destruct t as [|r t]; [reflexivity|].
  simpl. destruct (last_rowid t); discriminate.
Qed.

Lemma last_rowid_upper (t : list Row) (m : Z) :
  last_rowid t = Some m -> forall r, In r t -> id r <= m.
Proof.
  revert m. induction t as [|x t IH]; intros m H r Hin; [contradiction|].
  simpl in H. destruct (last_rowid t) as [k|] eqn:E.
  - injection H as <-. destruct Hin as [<-|Hin]; [lia|].
    specialize (IH k eq_refl r Hin). lia.
  - injection H as <-. apply last_rowid_None in E. subst t.
    destruct Hin as [<-|[]]. lia.
Qed.

Lemma last_rowid_member (t : list Row) (m : Z) :
  last_rowid t = Some m -> exists r, In r t /\ id r = m.
Proof.
  revert m. induction t as [|x t IH]; intros m H; [discriminate|].
  simpl in H. destruct (last_rowid t) as [k|] eqn:E.
  - injection H as <-. destruct (Z.max_spec (id x) k) as [[_ ->]|[_ ->]].
    + destruct (IH k eq_refl) as (r & Hin & Hr). exists r. split; [now right|exact Hr].
    + exists x. split; [now left|reflexivity].
  - injection H as <-. exists x. split; [now left|reflexivity].
Qed.

Lemma new_rowid_Returned (d : Db) (v : Z) :
  new_rowid d = Returned v ->
  sqlite_sequence d < v /\ (forall r, In r (rows d) -> id r < v).
Proof.
  unfold new_rowid. destruct (last_rowid (rows d)) as [m|] eqn:E.
  - destruct (MAX_ROWID <=? m) eqn:E1; [discriminate|].
    destruct (sqlite_sequence d =? MAX_ROWID) eqn:E2; [discriminate|].
    cbn [orb]. intros H. injection H as <-.
    apply Z.leb_gt in E1. apply Z.eqb_neq in E2.
    pose proof (last_rowid_upper _ _ E) as Hup.
    split; [lia|].
    intros r Hin. specialize (Hup r Hin). lia.
  - destruct (sqlite_sequence d =? MAX_ROWID) eqn:E2; [discriminate|].
    intros H. injection H as <-. apply Z.eqb_neq in E2.
    apply last_rowid_None in E. rewrite E.
    split; [lia|]. intros r [].
Qed.

Lemma new_rowid_room (d : Db) : has_room d -> exists v, new_rowid d = Returned v.
Proof.
  intros [Hseq Hrows]. unfold new_rowid.
  destruct (last_rowid (rows d)) as [m|] eqn:E.
  - destruct (last_rowid_member _ _ E) as (r & Hin & Hr).
    specialize (Hrows r Hin).
    replace (MAX_ROWID <=? m) with false by (symmetry; apply Z.leb_gt; lia).
    replace (sqlite_sequence d =? MAX_ROWID) with false
      by (symmetry; apply Z.eqb_neq; lia).
    eexists; reflexivity.
  - replace (sqlite_sequence d =? MAX_ROWID) with false
      by (symmetry; apply Z.eqb_neq; lia).
    eexists; reflexivity.
Qed.

(** ** POST /api/register: the two ways it ends *)

Lemma post_register_inv (env : Env) (d : Db) (data : Payload)
    (resp : Response) (d' : Db) :
  post_register env d data = (resp, d') ->
  (exists i params,
      resp = json (Registered i)
      /\ d' = {| rows := rows d ++ [row_of i params (now env)];
                 sqlite_sequence := i |}
      /\ new_rowid d = Returned i
      /\ fault env = None
      /\ bind_values (run_args data) = Returned params
      /\ value_of (store_values params) nome_completo <> SNull
      /\ value_of (store_values params) cpf <> SNull
      /\ existsb (fun r => sql_equal (field_of r cpf)
                             (value_of (store_values params) cpf)) (rows d)
         = false)
  \/ (exists message, resp = error_envelope message /\ d' = d).
Proof.
  unfold post_register.
  destruct (bind_values (run_args data)) as [params|m0] eqn:Eb.
  2: { unfold insert_athlete. rewrite Eb. cbn [bind].
       intros H; injection H as <- <-; right; eauto. }
  rewrite (insert_athlete_bound env d _ _ Eb).
  destruct (fault env) as [m|];
    [intros H; injection H as <- <-; right; eauto|].
  destruct (new_rowid d) as [i|m];
    [|intros H; injection H as <- <-; right; eauto].
  destruct (value_of (store_values params) nome_completo) eqn:En;
    try (intros H; injection H as <- <-; right; eauto; fail);
    destruct (value_of (store_values params) cpf) eqn:Ec;
    try (intros H; injection H as <- <-; right; eauto; fail);
    match goal with |- context [existsb ?f ?l] => destruct (existsb f l) eqn:Eu end;
    try (intros H; injection H as <- <-; right; eauto; fail);
    intros H; injection H as <- <-; left; exists i, params;
    repeat split; try congruence; rewrite Ec; exact Eu.
Qed.

(** The same for a payload whose fields each take one placeholder: the
    row appended is the row built from the payload. *)
Lemma post_register_scalar_inv (env : Env) (d : Db) (data : Payload)
    (resp : Response) (d' : Db) :
  scalar_fields data ->
  post_register env d data = (resp, d') ->
  (exists i,
      resp = json (Registered i)
      /\ d' = {| rows := rows d ++ [new_row i data (now env)];
                 sqlite_sequence := i |}
      /\ new_rowid d = Returned i
      /\ fault env = None
      /\ existsb is_bool (run_args data) = false
      /\ stored data nome_completo <> SNull
      /\ stored data cpf <> SNull
      /\ existsb (fun r => sql_equal (field_of r cpf) (stored data cpf)) (rows d)
         = false)
  \/ (exists message, resp = error_envelope message /\ d' = d).
Proof.
  intros Hs H.
  destruct (post_register_inv _ _ _ _ _ H)
    as [(i & params & -> & -> & Hi & Hf & Hb & Hn & Hc & Hu)|Hfail];
    [left|right; exact Hfail].
  rewrite (bind_values_scalar data Hs) in Hb.
  destruct (existsb is_bool (run_args data)) eqn:Ebool; [discriminate|].
  assert (Hp : params = map to_sql (run_args data)) by congruence.
  subst params. clear Hb.
  rewrite stored_values, value_of_tabulate in Hn, Hc, Hu.
  rewrite row_of_new_row.
  exists i. repeat split; assumption.
Qed.

Lemma post_register_ok (env : Env) (d : Db) (data : Payload) :
  fault env = None ->
  scalar_fields data ->
  existsb is_bool (run_args data) = false ->
  has_room d ->
  stored data nome_completo <> SNull ->
  stored data cpf <> SNull ->
  (forall r, In r (rows d) -> sql_equal (field_of r cpf) (stored data cpf) = false) ->
  exists i,
    new_rowid d = Returned i
    /\ post_register env d data
       = (json (Registered i),
          {| rows := rows d ++ [new_row i data (now env)]; sqlite_sequence := i |}).
Proof.
  intros Hf Hs Hb Hroom Hn Hc Hu.
  destruct (new_rowid_room d Hroom) as (i & Hi). exists i. split; [exact Hi|].
  unfold post_register. rewrite (insert_athlete_eq _ _ _ Hs), Hf, Hb, Hi.
  assert (Hex : existsb (fun r => sql_equal (field_of r cpf) (stored data cpf)) (rows d)
                = false).
  { destruct (existsb _ (rows d)) eqn:E; [|reflexivity].
    apply existsb_exists in E. destruct E as (r & Hin & Hr).
    rewrite (Hu r Hin) in Hr. discriminate. }
  rewrite Hex.
  destruct (stored data nome_completo); try congruence;
    destruct (stored data cpf); try congruence; reflexivity.
Qed.

Lemma value_of_first (x : SqlValue) (rest : list SqlValue) :
  value_of (store_values (x :: rest)) nome_completo = apply_affinity AffText x.
Proof. reflexivity. Qed.

Lemma value_of_second (x y : SqlValue) (rest : list SqlValue) :
  value_of (store_values (x :: y :: rest)) cpf = apply_affinity AffText y.
Proof. reflexivity. Qed.

(** A payload without a value for a NOT NULL column is refused: without
    a name always, and without a [cpf] when the name takes one
    placeholder. *)
Lemma not_null_refuses (env : Env) (d : Db) (data : Payload) :
  data nome_completo = JsUndefined
  \/ (data cpf = JsUndefined /\ is_scalar (data nome_completo) = true) ->
  exists message, post_register env d data = (error_envelope message, d).
Proof.
  intros H. destruct (post_register env d data) as [resp d'] eqn:E.
  destruct (post_register_inv _ _ _ _ _ E)
    as [(i & params & _ & _ & _ & _ & Hb & Hn & Hc & _)|(m & -> & ->)].
  - exfalso. destruct H as [Hu|[Hu Hs]].
    + destruct (bound_first data params Hb) as (rest & ->);
        [rewrite Hu; reflexivity|].
      rewrite value_of_first, Hu in Hn. apply Hn. reflexivity.
    + destruct (bound_second data params Hb Hs) as (rest & ->);
        [rewrite Hu; reflexivity|].
      rewrite value_of_second, Hu in Hc. apply Hc. reflexivity.
  - exists m. reflexivity.
Qed.

(** ** Registration: refusals *)

(** C1, as the code has it. Whatever the state of the table, a register
    payload whose [cpf] is the [cpf] of a row already stored and whose
    [nome_completo] is not an array or an object gets the error envelope
    with status 500, and the database is left exactly as it was: no row is
    added and no existing row changes. *)
Theorem duplicate_cpf_rejected (env : Env) (d : Db) (data : Payload)
    (s : string) (r : Row) :
  is_scalar (data nome_completo) = true ->
  data cpf = JsString s ->
  In r (rows d) ->
  field_of r cpf = SText s ->
  exists message,
    post_register env d data = (error_envelope message, d)
    /\ status (fst (post_register env d data)) = 500.
Proof.
  intros Hs Hd Hin Hr.
  destruct (post_register env d data) as [resp d'] eqn:E.
  destruct (post_register_inv _ _ _ _ _ E)
    as [(i & params & _ & _ & _ & _ & Hb & _ & _ & Hu)|(m & -> & ->)].
  - exfalso.
    destruct (bound_second data params Hb Hs) as (rest & ->);
      [rewrite Hd; reflexivity|].
    rewrite value_of_second, Hd in Hu. cbn [to_sql apply_affinity] in Hu.
    assert (Hex : existsb (fun x => sql_equal (field_of x cpf) (SText s)) (rows d)
                  = true).
    { apply existsb_exists. exists r. split; [exact Hin|].
      rewrite Hr. simpl. apply String.eqb_refl. }
    congruence.
  - exists m. split; reflexivity.
Qed.

Lemma duplicate_cpf_rejected_witness :
  exists message,
    post_register (quiet 101) ana_db (minimal "Bia" "111")
    = (error_envelope message, ana_db)
    /\ status (fst (post_register (quiet 101) ana_db (minimal "Bia" "111"))) = 500.
Proof.
  apply (duplicate_cpf_rejected (quiet 101) ana_db (minimal "Bia" "111") "111" ana_row).
  - reflexivity.
  - reflexivity.
  - simpl. left. reflexivity.
  - reflexivity.
Defined.

(** C1, the counterexample. Ana is registered with the national
    identifier "111".  A body whose [nome_completo] is the empty array,
    whose [cpf] is "111" again and whose [data_nascimento] is an array of
    two strings is registered all the same, with status 200 and id 2: the
    driver spreads the arrays over the placeholders, so "111" is bound to
    the placeholder of the name and "x" to that of the [cpf]. *)
Lemma duplicate_cpf_stored_from_arrays :
  two_birth_dates cpf = JsString "111"
  /\ In ana_row (rows ana_db)
  /\ field_of ana_row cpf = SText "111"
  /\ post_register (quiet 101) ana_db two_birth_dates
     = (json (Registered 2),
        {| rows := rows ana_db ++ [two_birth_dates_row]; sqlite_sequence := 2 |})
  /\ status (fst (post_register (quiet 101) ana_db two_birth_dates)) = 200
  /\ field_of two_birth_dates_row nome_completo = SText "111"
  /\ field_of two_birth_dates_row cpf = SText "x".
Proof.
  refine (conj eq_refl (conj _ (conj eq_refl (conj eq_refl
            (conj eq_refl (conj eq_refl eq_refl)))))).
  simpl. left. reflexivity.
Qed.

(** C6, as the code has it. A register payload from which the full name
    is absent, and a register payload from which the national identifier
    is absent and whose full name is not an array or an object, gets the
    error envelope with status 500, and no row is inserted: the database
    is left as it was. *)
Theorem required_field_absent_rejected (env : Env) (d : Db) (data : Payload) :
  data nome_completo = JsUndefined
  \/ (data cpf = JsUndefined /\ is_scalar (data nome_completo) = true) ->
  exists message,
    post_register env d data = (error_envelope message, d)
    /\ status (fst (post_register env d data)) = 500.
Proof.
  intros H.
  destruct (not_null_refuses env d data H) as (m & Hm).
  exists m. rewrite Hm. split; reflexivity.
Qed.

Lemma required_field_absent_rejected_witness :
  exists message,
    post_register (quiet 100) ana_db (fun c => if Column_beq c cpf then JsUndefined else ana c)
    = (error_envelope message, ana_db)
    /\ status (fst (post_register (quiet 100) ana_db
                      (fun c => if Column_beq c cpf then JsUndefined else ana c))) = 500.
Proof.
  apply (required_field_absent_rejected (quiet 100) ana_db
           (fun c => if Column_beq c cpf then JsUndefined else ana c)).
  right. split; reflexivity.
Defined.

(** C6, the counterexample. A body with no [cpf] property, whose
    [nome_completo] is an array of two strings and whose [uf] is the
    empty array, is registered with status 200 and id 1: the second
    string of the name is bound to the placeholder of the [cpf]. *)
Lemma absent_cpf_stored_from_arrays :
  two_names cpf = JsUndefined
  /\ post_register (quiet 100) empty_db two_names
     = (json (Registered 1), {| rows := [two_names_row]; sqlite_sequence := 1 |})
  /\ status (fst (post_register (quiet 100) empty_db two_names)) = 200
  /\ field_of two_names_row nome_completo = SText "Ana"
  /\ field_of two_names_row cpf = SText "111".
Proof. repeat split; reflexivity. Qed.

(** ** Registration: what is stored *)

(** C7. The consent flag is stored as an integer.  Whenever a
    registration inserts a row, the [termo_aceite] column of that row is
    the integer 1 if the submitted value is truthy and 0 if not: exactly 1
    for the boolean true, exactly 0 for the boolean false, and never
    anything but 0 or 1. *)
Theorem consent_stored_as_integer (env : Env) (d : Db) (data : Payload)
    (i : Z) (d' : Db) :
  post_register env d data = (json (Registered i), d') ->
  exists r,
    rows d' = (rows d ++ [r])%list
    /\ id r = i
    /\ field_of r termo_aceite = SInt (if truthy (data termo_aceite) then 1 else 0)
    /\ (data termo_aceite = JsBool true -> field_of r termo_aceite = SInt 1)
    /\ (data termo_aceite = JsBool false -> field_of r termo_aceite = SInt 0)
    /\ (field_of r termo_aceite = SInt 0 \/ field_of r termo_aceite = SInt 1).
Proof.
  intros E.
  destruct (post_register_inv _ _ _ _ _ E)
    as [(j & params & Hj & -> & _ & _ & Hb & _)|(m & Hm & _)]; [|discriminate].
  injection Hj as <-.
  exists (row_of i params (now env)).
  assert (Hf : field_of (row_of i params (now env)) termo_aceite
               = SInt (if truthy (data termo_aceite) then 1 else 0)).
  { rewrite field_of_row_of. apply consent_bound, Hb. }
  repeat split.
  - exact Hf.
  - intros Hv. rewrite Hf, Hv. reflexivity.
  - intros Hv. rewrite Hf, Hv. reflexivity.
  - rewrite Hf. destruct (truthy (data termo_aceite)); [right|left]; reflexivity.
Qed.

Lemma consent_stored_as_integer_witness :
  exists r,
    rows ana_db = ([] ++ [r])%list
    /\ id r = 1
    /\ field_of r termo_aceite = SInt (if truthy (ana termo_aceite) then 1 else 0)
    /\ (ana termo_aceite = JsBool true -> field_of r termo_aceite = SInt 1)
    /\ (ana termo_aceite = JsBool false -> field_of r termo_aceite = SInt 0)
    /\ (field_of r termo_aceite = SInt 0 \/ field_of r termo_aceite = SInt 1).
Proof.
  apply (consent_stored_as_integer (quiet 100) empty_db ana 1 ana_db).
  reflexivity.
Defined.

(** ** Store exceptions *)

(** C8. On each of the three routes, when the store call of the handler
    throws, the response has status 500 and the body
    [{ success: false, error }] whose [error] is the message of the
    exception, unchanged; the database is as before the request. *)
Theorem store_exception_surfaces (env : Env) (d : Db) (req : Request)
    (message : string) :
  store_throws env d req message ->
  handle env d req = ({| status := 500; body := Failure message |}, d).
Proof.
  destruct req as [data| |param]; simpl; intros H.
  - unfold post_register. rewrite H. reflexivity.
  - unfold get_athletes. rewrite H. reflexivity.
  - unfold delete_athletes_id. rewrite H. reflexivity.
Qed.

Lemma store_exception_surfaces_witness :
  handle (quiet 101) ana_db (PostRegister (minimal "Bia" "111"))
  = ({| status := 500; body := Failure "UNIQUE constraint failed: athletes.cpf" |},
     ana_db)
  /\ handle (locked 104) ana_db GetAthletes
     = ({| status := 500; body := Failure "database is locked" |}, ana_db)
  /\ handle (locked 104) ana_db (DeleteAthlete "1")
     = ({| status := 500; body := Failure "database is locked" |}, ana_db).
Proof.
  split; [|split].
  - apply (store_exception_surfaces (quiet 101) ana_db
             (PostRegister (minimal "Bia" "111"))
             "UNIQUE constraint failed: athletes.cpf").
    reflexivity.
  - apply (store_exception_surfaces (locked 104) ana_db GetAthletes
             "database is locked").
    reflexivity.
  - apply (store_exception_surfaces (locked 104) ana_db (DeleteAthlete "1")
             "database is locked").
    reflexivity.
Defined.

(** ** Listing *)

Section Precedes.
Context {A : Type}.

Lemma precedes_head (x y : A) (l : list A) : In y l -> precedes x y (x :: l).
Proof.
  intros H. apply in_split in H. destruct H as (l2 & l3 & ->).
  exists [], l2, l3. reflexivity.
Qed.

Lemma precedes_cons (x y z : A) (l : list A) :
  precedes x y l -> precedes x y (z :: l).
Proof.
  intros (l1 & l2 & l3 & ->). exists (z :: l1), l2, l3. reflexivity.
Qed.

Lemma precedes_inv (x y z : A) (l : list A) :
  precedes x y (z :: l) -> (x = z /\ In y l) \/ precedes x y l.
Proof.
  intros (l1 & l2 & l3 & H). destruct l1 as [|w l1]; simpl in H.
  - injection H as -> ->. left. split; [reflexivity|].
    apply in_or_app. right. now left.
  - injection H as -> ->. right. exists l1, l2, l3. reflexivity.
Qed.
End Precedes.

Lemma insert_desc_perm (r : Row) (l : list Row) :
  Permutation (insert_desc r l) (r :: l).
Proof.
  induction l as [|x l IH]; simpl; [apply Permutation_refl|].
  destruct (created_at r <? created_at x).
  - eapply perm_trans; [apply perm_skip, IH|apply perm_swap].
  - apply Permutation_refl.
Qed.

Lemma order_by_created_at_desc_perm (t : list Row) :
  Permutation (order_by_created_at_desc t) t.
Proof.
  induction t as [|r t IH]; simpl; [apply perm_nil|].
  eapply perm_trans; [apply insert_desc_perm|apply perm_skip, IH].
Qed.

Lemma insert_desc_sorted (r : Row) (l : list Row) :
  StronglySorted not_older l -> StronglySorted not_older (insert_desc r l).
Proof.
  induction l as [|x l IH]; intros Hs; simpl.
  - constructor; constructor.
  - inversion Hs as [|? ? Hl Hx]; subst.
    destruct (created_at r <? created_at x) eqn:E.
    + apply Z.ltb_lt in E. constructor; [apply IH, Hl|].
      apply Forall_forall. intros y Hy.
      apply (Permutation_in _ (insert_desc_perm r l)) in Hy.
      destruct Hy as [<-|Hy].
      * unfold not_older. lia.
      * rewrite Forall_forall in Hx. apply Hx, Hy.
    + apply Z.ltb_ge in E. constructor; [exact Hs|].
      constructor; [exact E|].
      rewrite Forall_forall in Hx |- *. intros y Hy.
      specialize (Hx y Hy). unfold not_older in *. lia.
Qed.

Lemma order_by_created_at_desc_sorted (t : list Row) :
  StronglySorted not_older (order_by_created_at_desc t).
Proof.
  induction t as [|r t IH]; simpl; [constructor|].
  apply insert_desc_sorted, IH.
Qed.

Lemma sorted_newer_precedes (l : list Row) (a b : Row) :
  StronglySorted not_older l ->
  In a l -> In b l -> created_at a < created_at b -> precedes b a l.
Proof.
  induction l as [|x l IH]; intros Hs Ha Hb Hlt; [contradiction|].
  inversion Hs as [|? ? Hl Hx]; subst. rewrite Forall_forall in Hx.
  destruct Hb as [<-|Hb].
  - destruct Ha as [<-|Ha]; [lia|]. apply precedes_head, Ha.
  - destruct Ha as [<-|Ha].
    + specialize (Hx b Hb). unfold not_older in Hx. lia.
    + apply precedes_cons, IH; assumption.
Qed.

Lemma insert_desc_keeps (r a b : Row) (l : list Row) :
  precedes a b l -> precedes a b (insert_desc r l).
Proof.
  induction l as [|x l IH]; intros H; simpl.
  - destruct H as (l1 & l2 & l3 & H). destruct l1; discriminate.
  - destruct (created_at r <? created_at x).
    + apply precedes_inv in H. destruct H as [[-> Hb]|H].
      * apply precedes_head.
        apply (Permutation_in _ (Permutation_sym (insert_desc_perm r l))).
        now right.
      * apply precedes_cons, IH, H.
    + apply precedes_cons, H.
Qed.

Lemma insert_desc_first (r x : Row) (l : list Row) :
  In x l -> created_at x <= created_at r -> precedes r x (insert_desc r l).
Proof.
  induction l as [|y l IH]; intros Hin Hle; [contradiction|]. simpl.
  destruct (created_at r <? created_at y) eqn:E.
  - apply Z.ltb_lt in E. destruct Hin as [->|Hin]; [lia|].
    apply precedes_cons, IH; assumption.
  - apply precedes_head, Hin.
Qed.

(** Rows of the same second keep the order of the table. *)
Lemma order_by_created_at_desc_stable (t : list Row) (a b : Row) :
  precedes a b t -> created_at b <= created_at a ->
  precedes a b (order_by_created_at_desc t).
Proof.
  induction t as [|x t IH]; intros H Hle.
  - destruct H as (l1 & l2 & l3 & H). destruct l1; discriminate.
  - simpl. apply precedes_inv in H. destruct H as [[-> Hb]|H].
    + apply insert_desc_first; [|exact Hle].
      apply (Permutation_in _ (Permutation_sym (order_by_created_at_desc_perm t))), Hb.
    + apply insert_desc_keeps, IH; assumption.
Qed.

Lemma list_sorted_result (env : Env) (d : Db) :
  fault env = None ->
  exists l, get_athletes env d = (json (Athletes l), d) /\ Permutation l (rows d).
Proof.
  intros Hf. exists (order_by_created_at_desc (rows d)).
  unfold get_athletes, select_athletes, driver. rewrite Hf. cbn [bind].
  split; [reflexivity|apply order_by_created_at_desc_perm].
Qed.

(** C2, as the code has it. With no driver failure, GET /api/athletes
    returns all stored rows and only them, ordered by [created_at]
    descending; of two stored rows the one with the strictly later
    [created_at] comes first, and rows with the same [created_at] (the
    clock counts whole seconds) come in table order, the one inserted
    first before the other. *)
Theorem list_orders_by_created_at (env : Env) (d : Db) :
  fault env = None ->
  exists l,
    get_athletes env d = (json (Athletes l), d)
    /\ Permutation l (rows d)
    /\ StronglySorted not_older l
    /\ (forall a b, In a (rows d) -> In b (rows d) ->
          created_at a < created_at b -> precedes b a l)
    /\ (forall a b, precedes a b (rows d) ->
          created_at a = created_at b -> precedes a b l).
Proof.
  intros Hf. exists (order_by_created_at_desc (rows d)).
  unfold get_athletes, select_athletes, driver. rewrite Hf. cbn [bind].
  pose proof (order_by_created_at_desc_perm (rows d)) as Hp.
  repeat split.
  - exact Hp.
  - apply order_by_created_at_desc_sorted.
  - intros a b Ha Hb Hlt.
    apply sorted_newer_precedes;
      [apply order_by_created_at_desc_sorted| | |exact Hlt];
      apply (Permutation_in _ (Permutation_sym Hp)); assumption.
  - intros a b Hab Heq. apply order_by_created_at_desc_stable; [exact Hab|lia].
Qed.

Lemma list_orders_by_created_at_witness :
  exists l,
    get_athletes (quiet 101) same_second_db = (json (Athletes l), same_second_db)
    /\ Permutation l (rows same_second_db)
    /\ StronglySorted not_older l
    /\ (forall a b, In a (rows same_second_db) -> In b (rows same_second_db) ->
          created_at a < created_at b -> precedes b a l)
    /\ (forall a b, precedes a b (rows same_second_db) ->
          created_at a = created_at b -> precedes a b l).
Proof.
  apply (list_orders_by_created_at (quiet 101) same_second_db).
  reflexivity.
Defined.

(** C2, the counterexample. Ana and then Bia register within one second.
    Bia's record is created after Ana's, and the listing has Ana's first:
    Bia's does not come before it. *)
Lemma created_later_not_listed_first :
  rows same_second_db = [ana_row; bia_row]
  /\ id ana_row < id bia_row
  /\ get_athletes (quiet 101) same_second_db
     = (json (Athletes [ana_row; bia_row]), same_second_db)
  /\ ~ precedes bia_row ana_row [ana_row; bia_row].
Proof.
  repeat split; try reflexivity.
  intros (l1 & l2 & l3 & H).
  destruct l1 as [|x l1]; [discriminate|].
  injection H as _ H.
  destruct l1 as [|y l1].
  - injection H as H. destruct l2; discriminate.
  - injection H as _ H. destruct l1; discriminate.
Qed.

(** ** Deleting *)

Lemma span_digits_step (c : ascii) (s : string) (acc n : Z) :
  is_digit c = true ->
  span_digits (String c s) acc n = span_digits s (acc * 10 + digit_value c) (n + 1).
Proof. intros H. simpl. rewrite H. reflexivity. Qed.

Lemma span_digits_uint (u : Decimal.uint) (acc n : Z) :
  span_digits (NilEmpty.string_of_uint u) acc n
  = (horner acc u, n + digit_count u, "").
Proof.
  revert acc n.
  induction u; intros acc n; cbn [NilEmpty.string_of_uint horner digit_count];
    [ cbn; now rewrite Z.add_0_r | .. ];
    rewrite span_digits_step by reflexivity; rewrite IHu;
    match goal with
    | |- context [digit_value ?c] =>
        let v := eval vm_compute in (digit_value c) in
        change (digit_value c) with v
    end;
    rewrite ?Z.add_0_r; f_equal; f_equal; lia.
Qed.

Lemma horner_of_uint_acc (u : Decimal.uint) (acc : positive) :
  Zpos (Pos.of_uint_acc u acc) = horner (Zpos acc) u.
Proof.
  revert acc. induction u; intros acc; cbn [Pos.of_uint_acc horner];
    [reflexivity | rewrite IHu; f_equal; lia ..].
Qed.

Lemma horner_of_uint (u : Decimal.uint) : Z.of_N (Pos.of_uint u) = horner 0 u.
Proof.
  induction u; cbn [Pos.of_uint horner]; try reflexivity; try exact IHu;
    cbn [Z.of_N]; rewrite horner_of_uint_acc; reflexivity.
Qed.

Lemma horner_to_uint (p : positive) : horner 0 (Pos.to_uint p) = Zpos p.
Proof.
  rewrite <- horner_of_uint, DecimalPos.Unsigned.of_to. reflexivity.
Qed.

Lemma digit_count_pos (u : Decimal.uint) : u <> Decimal.Nil -> 0 < digit_count u.
Proof.
  assert (H : forall v, 0 <= digit_count v) by (induction v; simpl; lia).
  destruct u; intros Hn; try congruence; simpl; specialize (H u); lia.
Qed.

(** A string of digits, as a whole, is the number it spells. *)
Lemma sqlite3AtoF_digits (u : Decimal.uint) :
  u <> Decimal.Nil ->
  sqlite3AtoF (NilEmpty.string_of_uint u) = Some (inject_Z (horner 0 u))
  /\ sqlite3AtoF (String "-" (NilEmpty.string_of_uint u))
     = Some (inject_Z (- horner 0 u)).
Proof.
  intros Hn. pose proof (digit_count_pos u Hn) as Hc.
  assert (Hs : skip_spaces (NilEmpty.string_of_uint u) = NilEmpty.string_of_uint u)
    by (destruct u; reflexivity).
  assert (Hr : read_sign (NilEmpty.string_of_uint u) = (1, NilEmpty.string_of_uint u))
    by (destruct u; reflexivity).
  split; unfold sqlite3AtoF.
  - rewrite Hs, Hr, span_digits_uint. cbn [skip_spaces].
    replace (0 <? 0 + digit_count u + 0) with true by (symmetry; apply Z.ltb_lt; lia).
    cbn [andb]. unfold scale10. cbn [Z.leb Z.sub Z.opp Z.add Z.compare].
    do 2 f_equal. lia.
  - assert (Hs' : skip_spaces (String "-" (NilEmpty.string_of_uint u))
                  = String "-" (NilEmpty.string_of_uint u)) by reflexivity.
    assert (Hr' : read_sign (String "-" (NilEmpty.string_of_uint u))
                  = (-1, NilEmpty.string_of_uint u)) by reflexivity.
    rewrite Hs', Hr', span_digits_uint. cbn [skip_spaces].
    replace (0 <? 0 + digit_count u + 0) with true by (symmetry; apply Z.ltb_lt; lia).
    cbn [andb]. unfold scale10. cbn [Z.leb Z.sub Z.opp Z.add Z.compare].
    do 2 f_equal. lia.
Qed.

(** The id as the client puts it in the path. *)
Lemma sqlite3AtoF_int_to_text (n : Z) : sqlite3AtoF (int_to_text n) = Some (inject_Z n).
Proof.
  unfold int_to_text. destruct n as [|p|p]; [reflexivity| |];
    cbn [Z.to_int NilZero.string_of_int];
    pose proof (DecimalPos.Unsigned.to_uint_nonnil p) as Hn;
    destruct (sqlite3AtoF_digits (Pos.to_uint p) Hn) as [Hp Hm];
    unfold NilZero.string_of_uint;
    destruct (Pos.to_uint p) eqn:E; try congruence;
    rewrite <- E in *; rewrite ?Hp, ?Hm, horner_to_uint; reflexivity.
Qed.

Lemma id_equals_int_to_text (n : Z) (r : Row) :
  id_equals (int_to_text n) r = (id r =? n).
Proof.
  unfold id_equals. rewrite sqlite3AtoF_int_to_text.
  unfold Qeq_bool, inject_Z. cbn [Qnum Qden].
  rewrite !Z.mul_1_r. reflexivity.
Qed.

(** The DELETE statement with any text in the path: the rows the WHERE
    clause selects go, the others stay as they are, and the handler
    answers [{ success: true }] whether or not a row went. *)
Lemma delete_any_parameter (env : Env) (d : Db) (param : string) :
  fault env = None ->
  delete_athletes_id env d param
  = (json Success,
     {| rows := filter (fun r => negb (id_equals param r)) (rows d);
        sqlite_sequence := sqlite_sequence d |}).
Proof.
  intros Hf. unfold delete_athletes_id, delete_athlete, driver.
  rewrite Hf. reflexivity.
Qed.

Lemma filter_all (A : Type) (f : A -> bool) (l : list A) :
  (forall x, In x l -> f x = true) -> filter f l = l.
Proof.
  induction l as [|x l IH]; intros H; simpl; [reflexivity|].
  rewrite (H x (or_introl eq_refl)), IH; [reflexivity|].
  intros y Hy. apply H. now right.
Qed.

(** C4. For every id, DELETE /api/athletes/id removes the rows with that
    id and no other row, and answers [{ success: true }].  When no row
    has that id the database is left as it was, still with
    [{ success: true }]; that is the case, in particular, of a second
    delete of the same id. *)
Theorem delete_removes_exactly_that_id (env : Env) (d : Db) (n : Z) :
  fault env = None ->
  exists d',
    delete_athletes_id env d (int_to_text n) = (json Success, d')
    /\ rows d' = filter (fun r => negb (id r =? n)) (rows d)
    /\ sqlite_sequence d' = sqlite_sequence d
    /\ (forall r, In r (rows d') <-> In r (rows d) /\ id r <> n)
    /\ ((forall r, In r (rows d) -> id r <> n) ->
        delete_athletes_id env d (int_to_text n) = (json Success, d))
    /\ delete_athletes_id env d' (int_to_text n) = (json Success, d').
Proof.
  intros Hf.
  assert (Hfil : forall t,
             filter (fun r => negb (id_equals (int_to_text n) r)) t
             = filter (fun r => negb (id r =? n)) t).
  { intros t. apply filter_ext. intros r. now rewrite id_equals_int_to_text. }
  exists {| rows := filter (fun r => negb (id r =? n)) (rows d);
            sqlite_sequence := sqlite_sequence d |}.
  assert (Hmem : forall r, In r (filter (fun r => negb (id r =? n)) (rows d))
                           <-> In r (rows d) /\ id r <> n).
  { intros r. rewrite filter_In, negb_true_iff, Z.eqb_neq. reflexivity. }
  refine (conj _ (conj _ (conj _ (conj _ (conj _ _))))).
  - rewrite (delete_any_parameter env d _ Hf), Hfil. reflexivity.
  - reflexivity.
  - reflexivity.
  - exact Hmem.
  - intros Hnone. rewrite (delete_any_parameter env d _ Hf), Hfil.
    rewrite filter_all; [destruct d; reflexivity|].
    intros r Hin. apply negb_true_iff, Z.eqb_neq, Hnone, Hin.
  - rewrite (delete_any_parameter env _ _ Hf), Hfil. cbn [rows sqlite_sequence].
    rewrite filter_all; [reflexivity|].
    intros r Hin. apply Hmem in Hin. apply negb_true_iff, Z.eqb_neq, Hin.
Qed.

Lemma delete_removes_exactly_that_id_witness :
  exists d',
    delete_athletes_id (quiet 102) same_second_db (int_to_text 1) = (json Success, d')
    /\ rows d' = filter (fun r => negb (id r =? 1)) (rows same_second_db)
    /\ sqlite_sequence d' = sqlite_sequence same_second_db
    /\ (forall r, In r (rows d') <-> In r (rows same_second_db) /\ id r <> 1)
    /\ ((forall r, In r (rows same_second_db) -> id r <> 1) ->
        delete_athletes_id (quiet 102) same_second_db (int_to_text 1)
        = (json Success, same_second_db))
    /\ delete_athletes_id (quiet 102) d' (int_to_text 1) = (json Success, d').
Proof.
  apply (delete_removes_exactly_that_id (quiet 102) same_second_db 1).
  reflexivity.
Defined.

(** The path segments "1", "1.0", " 1", "01", "+1" and "1e0" all select
    row 1; "abc", "1.5", "0x1" and "1abc" select no row. *)
Example delete_path_texts :
  map (fun param => map id (rows (snd (delete_athletes_id (quiet 102) same_second_db param))))
      ["1"; "1.0"; " 1"; "01"; "+1"; "1e0"; "abc"; "1.5"; "0x1"; "1abc"; "2"]
  = [[2]; [2]; [2]; [2]; [2]; [2]; [1; 2]; [1; 2]; [1; 2]; [1; 2]; [1]].
Proof. reflexivity. Qed.

(** ** Runs of requests *)

(** What one request can do to the table: [sqlite_sequence] never goes
    down, every row of the new table is a row of the old one or has a
    rowid above the old [sqlite_sequence], and a registration returns the
    new value of [sqlite_sequence]. *)
Lemma handle_step (env : Env) (d : Db) (req : Request) (resp : Response) (d' : Db) :
  handle env d req = (resp, d') ->
  sqlite_sequence d <= sqlite_sequence d'
  /\ (forall r, In r (rows d') -> In r (rows d) \/ sqlite_sequence d < id r)
  /\ (within_sequence d -> within_sequence d')
  /\ (forall i, body resp = Registered i ->
        sqlite_sequence d < i /\ sqlite_sequence d' = i).
Proof.
  destruct req as [data| |param]; cbn [handle]; intros H.
  - destruct (post_register_inv _ _ _ _ _ H)
      as [(i & params & -> & -> & Hi & _)|(m & -> & ->)].
    + apply new_rowid_Returned in Hi. destruct Hi as [Hseq Hrows].
      cbn [rows sqlite_sequence].
      refine (conj _ (conj _ (conj _ _))).
      * lia.
      * intros r Hin. apply in_app_or in Hin.
        destruct Hin as [Hin|[<-|[]]]; [now left|right; exact Hseq].
      * intros Hw r Hin. cbn [rows sqlite_sequence] in *. apply in_app_or in Hin.
        destruct Hin as [Hin|[<-|[]]]; [|cbn; lia].
        specialize (Hrows r Hin). lia.
      * intros j Hj. cbn in Hj. injection Hj as <-. split; [exact Hseq|reflexivity].
    + repeat split; try lia; try tauto; cbn in *; discriminate.
  - unfold get_athletes in H. destruct (select_athletes env d);
      injection H as <- <-; repeat split; try lia; try tauto; cbn in *; discriminate.
  - unfold delete_athletes_id, delete_athlete in H. destruct (driver env);
      cbn [bind] in H; injection H as <- <-; cbn [rows sqlite_sequence].
    + repeat split; try lia; try (cbn in *; discriminate).
      * intros r Hin. apply filter_In in Hin. left. tauto.
      * intros Hw r Hin. cbn [rows sqlite_sequence] in *.
        apply filter_In in Hin. apply Hw. tauto.
    + repeat split; try lia; try tauto; cbn in *; discriminate.
Qed.

Lemma registered_ids_cons (resp : Response) (rest : list Response) :
  registered_ids (resp :: rest) =
  match body resp with
  | Registered i => i :: registered_ids rest
  | _ => registered_ids rest
  end.
Proof. destruct resp as [s b]; destruct b; reflexivity. Qed.

Lemma serve_cons (d : Db) (env : Env) (req : Request) (rest : list (Env * Request)) :
  serve d ((env, req) :: rest)
  = (fst (handle env d req) :: fst (serve (snd (handle env d req)) rest),
     snd (serve (snd (handle env d req)) rest)).
Proof.
  cbn [serve]. destruct (handle env d req) as [resp d1].
  cbn [fst snd]. destruct (serve d1 rest). reflexivity.
Qed.

Lemma serve_ids (reqs : list (Env * Request)) (d : Db) :
  Forall (fun i => sqlite_sequence d < i) (registered_ids (fst (serve d reqs)))
  /\ StronglySorted Z.lt (registered_ids (fst (serve d reqs))).
Proof.
  revert d. induction reqs as [|[env req] rest IH]; intros d.
  - cbn. split; constructor.
  - rewrite serve_cons. cbn [fst]. rewrite registered_ids_cons.
    destruct (handle env d req) as [resp d1] eqn:E. cbn [fst snd].
    destruct (handle_step _ _ _ _ _ E) as (Hseq & _ & _ & Hreg).
    destruct (IH d1) as [Hall Hsorted].
    assert (Hall' : Forall (fun i => sqlite_sequence d < i)
                           (registered_ids (fst (serve d1 rest)))).
    { eapply Forall_impl; [|exact Hall]. cbn. intros; lia. }
    destruct (body resp) as [i| | |] eqn:Eb; try (split; assumption).
    destruct (Hreg i eq_refl) as [Hlt Heq]. split.
    + constructor; assumption.
    + constructor; [exact Hsorted|]. rewrite <- Heq. exact Hall.
Qed.

Lemma StronglySorted_lt_NoDup (l : list Z) : StronglySorted Z.lt l -> NoDup l.
Proof.
  induction 1 as [|x l Hs IH Hx]; constructor; [|exact IH].
  intros Hin. rewrite Forall_forall in Hx. specialize (Hx x Hin). lia.
Qed.

(** C5. Over any run of register, list and delete requests, starting
    from a table whose AUTOINCREMENT bookkeeping is in order, the ids the
    successful registrations return are strictly increasing: each is
    greater than every id returned before it, greater than the largest id
    the table ever held before the run, and so greater than the id of
    every row the run started with, deleted since or not.  No id is
    returned twice. *)
Theorem registered_ids_strictly_increase (d : Db) (reqs : list (Env * Request)) :
  within_sequence d ->
  StronglySorted Z.lt (registered_ids (fst (serve d reqs)))
  /\ NoDup (registered_ids (fst (serve d reqs)))
  /\ Forall (fun i => sqlite_sequence d < i /\ forall r, In r (rows d) -> id r < i)
            (registered_ids (fst (serve d reqs))).
Proof.
  intros Hw. destruct (serve_ids reqs d) as [Hall Hsorted].
  split; [exact Hsorted|]. split; [apply StronglySorted_lt_NoDup, Hsorted|].
  eapply Forall_impl; [|exact Hall]. cbn. intros i Hi. split; [exact Hi|].
  intros r Hin. specialize (Hw r Hin). lia.
Qed.

Lemma registered_ids_strictly_increase_witness :
  StronglySorted Z.lt (registered_ids (fst (serve ana_db session)))
  /\ NoDup (registered_ids (fst (serve ana_db session)))
  /\ Forall (fun i => sqlite_sequence ana_db < i
                      /\ forall r, In r (rows ana_db) -> id r < i)
            (registered_ids (fst (serve ana_db session))).
Proof.
  apply (registered_ids_strictly_increase ana_db session).
  intros r [<-|[]]. simpl. lia.
Defined.

(** After Bia's record (id 2) is deleted, Caio gets id 3, not 2. *)
Example session_ids : registered_ids (fst (serve ana_db session)) = [2; 3].
Proof. reflexivity. Qed.

Lemma serve_rows (reqs : list (Env * Request)) (d : Db) :
  within_sequence d ->
  forall r, In r (rows (snd (serve d reqs))) ->
            In r (rows d) \/ sqlite_sequence d < id r.
Proof.
  revert d. induction reqs as [|[env req] rest IH]; intros d Hw r Hin.
  - left. exact Hin.
  - rewrite serve_cons in Hin. cbn [snd] in Hin.
    destruct (handle env d req) as [resp d1] eqn:E. cbn [snd] in Hin.
    destruct (handle_step _ _ _ _ _ E) as (Hseq & Hrows & Hw1 & _).
    destruct (IH d1 (Hw1 Hw) r Hin) as [H1|H1].
    + apply Hrows, H1.
    + right. lia.
Qed.

Lemma same_id_same_row (t : list Row) (r r' : Row) :
  NoDup (map id t) -> In r t -> In r' t -> id r' = id r -> r' = r.
Proof.
  induction t as [|x t IH]; intros Hnd Hr Hr' Heq; [contradiction|].
  cbn in Hnd. inversion Hnd as [|? ? Hx Hnd']; subst.
  destruct Hr as [->|Hr]; destruct Hr' as [->|Hr'].
  - reflexivity.
  - exfalso. apply Hx. rewrite <- Heq. apply in_map, Hr'.
  - exfalso. apply Hx. rewrite Heq. apply in_map, Hr.
  - apply IH; assumption.
Qed.

(** C9. No request modifies a stored record.  Take a table with its
    primary key and AUTOINCREMENT bookkeeping in order, a record [r] in
    it, and any run of register, list and delete requests: a record found
    under [r]'s id after the run is [r] itself, every column and
    [created_at] included.  (The record may be gone; it is never
    different.) *)
Theorem stored_records_never_change (d : Db) (reqs : list (Env * Request))
    (r r' : Row) :
  primary_key d ->
  within_sequence d ->
  In r (rows d) ->
  In r' (rows (snd (serve d reqs))) ->
  id r' = id r ->
  r' = r.
Proof.
  intros Hpk Hw Hr Hr' Heq.
  destruct (serve_rows reqs d Hw r' Hr') as [Hold|Hnew].
  - exact (same_id_same_row (rows d) r r' Hpk Hr Hold Heq).
  - specialize (Hw r Hr). lia.
Qed.

Lemma stored_records_never_change_witness :
  hd bia_row (rows (snd (serve ana_db session))) = ana_row.
Proof.
  apply (stored_records_never_change ana_db session ana_row
           (hd bia_row (rows (snd (serve ana_db session))))).
  - repeat constructor. simpl. tauto.
  - intros r [<-|[]]. simpl. lia.
  - simpl. left. reflexivity.
  - vm_compute. left. reflexivity.
  - reflexivity.
Defined.

(** ** Registration: success and round trip *)

Lemma no_bool_args (data : Payload) :
  (forall c, c <> termo_aceite -> is_bool (data c) = false) ->
  existsb is_bool (run_args data) = false.
Proof.
  intros H. unfold run_args. cbn [existsb is_bool].
  rewrite !H by discriminate. reflexivity.
Qed.

Lemma bindable_fields (data : Payload) :
  (forall c, c <> termo_aceite -> bindable (data c) = true) ->
  scalar_fields data /\ existsb is_bool (run_args data) = false.
Proof.
  intros H. split.
  - intros c Hc. specialize (H c Hc). destruct (data c); (reflexivity || discriminate).
  - apply no_bool_args. intros c Hc. specialize (H c Hc).
    destruct (data c); (reflexivity || discriminate).
Qed.

Lemma fresh_text (t : list Row) (s : string) :
  (forall r, In r t -> json_field r cpf <> JsString s) ->
  forall r, In r t -> sql_equal (field_of r cpf) (SText s) = false.
Proof.
  intros H r Hin. specialize (H r Hin). unfold json_field in H.
  destruct (field_of r cpf) as [|n|q|s']; try reflexivity.
  cbn in *. apply String.eqb_neq. congruence.
Qed.

(** Name and national identifier given as text, every other field one
    the driver binds, a fresh national identifier, a rowid left and no
    driver failure: the registration succeeds and appends the row built
    from the payload. *)
Lemma post_register_text (env : Env) (d : Db) (data : Payload) (name nid : string) :
  fault env = None ->
  has_room d ->
  data nome_completo = JsString name ->
  data cpf = JsString nid ->
  (forall c, c <> termo_aceite -> bindable (data c) = true) ->
  (forall r, In r (rows d) -> json_field r cpf <> JsString nid) ->
  exists i,
    new_rowid d = Returned i
    /\ post_register env d data
       = (json (Registered i),
          {| rows := rows d ++ [new_row i data (now env)]; sqlite_sequence := i |}).
Proof.
  intros Hf Hroom Hn Hc Hb Hfresh.
  destruct (bindable_fields data Hb) as [Hs Hnb].
  assert (Hsn : stored data nome_completo = SText name)
    by (unfold stored, arg; now rewrite Hn).
  assert (Hsc : stored data cpf = SText nid)
    by (unfold stored, arg; now rewrite Hc).
  apply post_register_ok; try assumption.
  - rewrite Hsn. discriminate.
  - rewrite Hsc. discriminate.
  - rewrite Hsc. apply fresh_text, Hfresh.
Qed.



Lemma form_typed_form (name nid weight : string) (consent : bool) :
  form_typed (form name nid weight consent).
Proof.
  split.
  - intros c Hc. destruct c; try (eexists; reflexivity). contradiction Hc. reflexivity.
  - exists consent. reflexivity.
Qed.

Lemma has_room_empty : has_room empty_db.
Proof. split; [reflexivity|intros r []]. Qed.



(** ** Absent fields *)

(** C10, the counterexample. A body with the full name and the national
    identifier and nothing else (no birth date, no city, ...) is
    registered: status 200, id 1, one row inserted, the absent columns
    NULL. *)
Lemma optional_fields_may_be_absent :
  minimal "Ana Silva" "111" data_nascimento = JsUndefined
  /\ minimal "Ana Silva" "111" cidade = JsUndefined
  /\ post_register (quiet 100) empty_db (minimal "Ana Silva" "111")
     = (json (Registered 1),
        {| rows := [new_row 1 (minimal "Ana Silva" "111") 100];
           sqlite_sequence := 1 |})
  /\ status (fst (post_register (quiet 100) empty_db (minimal "Ana Silva" "111"))) = 200
  /\ field_of (new_row 1 (minimal "Ana Silva" "111") 100) data_nascimento = SNull
  /\ field_of (new_row 1 (minimal "Ana Silva" "111") 100) cidade = SNull.
Proof. repeat split; reflexivity. Qed.

(** C10, as the code has it. Of the twenty-nine bound fields only the
    two NOT NULL ones are needed.  A body from which [nome_completo] is
    absent, or from which [cpf] is absent while [nome_completo] is not an
    array or an object, gets status 500 and inserts no row.  A body with
    both as text, a fresh [cpf] and every other field absent, null, a
    number or a string is registered whatever else is absent, provided
    the store itself does not fail (no driver failure, a rowid left):
    every absent field is stored as NULL, an absent consent flag as 0. *)
Theorem absent_fields (env : Env) (d : Db) (data : Payload) :
  (data nome_completo = JsUndefined
   \/ (data cpf = JsUndefined /\ is_scalar (data nome_completo) = true) ->
   exists message, post_register env d data = (error_envelope message, d))
  /\ (forall name nid,
        fault env = None ->
        has_room d ->
        data nome_completo = JsString name ->
        data cpf = JsString nid ->
        (forall c, c <> termo_aceite -> bindable (data c) = true) ->
        (forall r, In r (rows d) -> json_field r cpf <> JsString nid) ->
        exists i r,
          post_register env d data
          = (json (Registered i), {| rows := rows d ++ [r]; sqlite_sequence := i |})
          /\ id r = i
          /\ (forall c, c <> termo_aceite -> data c = JsUndefined ->
                field_of r c = SNull)
          /\ (data termo_aceite = JsUndefined -> field_of r termo_aceite = SInt 0)).
Proof.
  split.
  - apply not_null_refuses.
  - intros name nid Hf Hroom Hn Hc Hb Hfresh.
    destruct (post_register_text env d data name nid Hf Hroom Hn Hc Hb Hfresh)
      as (i & _ & Hreg).
    exists i, (new_row i data (now env)).
    refine (conj Hreg (conj eq_refl (conj _ _))).
    + intros c Hne Hu. rewrite field_of_new_row. unfold stored, arg.
      destruct c; try (rewrite Hu; reflexivity). contradiction Hne. reflexivity.
    + intros Hu. rewrite field_of_new_row. unfold stored, arg. rewrite Hu. reflexivity.
Qed.

Lemma absent_fields_witness :
  (exists message,
      post_register (quiet 100) empty_db (fun _ => JsUndefined)
      = (error_envelope message, empty_db))
  /\ exists i r,
       post_register (quiet 100) empty_db (minimal "Ana Silva" "111")
       = (json (Registered i), {| rows := [] ++ [r]; sqlite_sequence := i |})
       /\ id r = i
       /\ (forall c, c <> termo_aceite -> minimal "Ana Silva" "111" c = JsUndefined ->
             field_of r c = SNull)
       /\ (minimal "Ana Silva" "111" termo_aceite = JsUndefined ->
           field_of r termo_aceite = SInt 0).
Proof.
  split.
  - apply (proj1 (absent_fields (quiet 100) empty_db (fun _ => JsUndefined))).
    left. reflexivity.
  - apply (proj2 (absent_fields (quiet 100) empty_db (minimal "Ana Silva" "111"))
             "Ana Silva" "111").
    + reflexivity.
    + split; [reflexivity|]. simpl. intros r [].
    + reflexivity.
    + reflexivity.
    + intros c Hc. destruct c; reflexivity.
    + simpl. intros r [].
Defined.

(** ** Sample values

    The conversions below give, on these inputs, what SQLite gives. *)

Example sqlite3AtoF_samples :
  map sqlite3AtoF ["70"; "1.75"; " 7e1 "; "1."; ".5"; "+5"; "-2.50e-1"; "01"]
  = [Some 70; Some (7 # 4); Some 70; Some 1; Some (1 # 2); Some 5;
     Some (-1 # 4); Some 1]%Q
  /\ map sqlite3AtoF [""; "1e"; "."; "-"; "0x10"; "1 2"; "1abc"; "abc"]
     = [None; None; None; None; None; None; None; None].
Proof. split; reflexivity. Qed.

Example real_to_text_samples :
  map real_to_text [111; 5; 0; -3 # 2; 1 # 4; inject_Z (10 ^ 14)]%Q
  = ["111.0"; "5.0"; "0.0"; "-1.5"; "0.25"; "100000000000000.0"].
Proof. reflexivity. Qed.

(** Bodies like Bia's with an object or an array in the [uf] field: an
    object takes no placeholder and an array of two takes two, so that 28
    or 30 values are bound and the statement is refused; an array of one
    is stored as its element. *)
Example array_and_object_fields :
  map (fun v => status (fst (post_register (quiet 101) ana_db
                               (fun c => if Column_beq c uf then v else bia c))))
      [JsObject; JsArray [JsString "SP"; JsString "RJ"]; JsArray [JsString "SP"];
       JsString "SP"]
  = [500; 500; 200; 200].
Proof. reflexivity. Qed.

(** A number sent as national identifier is stored as its text. *)
Example numeric_cpf_stored_as_text :
  stored (fun c => if Column_beq c cpf then JsNumber 111 else ana c) cpf
  = SText "111.0".
Proof. reflexivity. Qed.

(** The scenario of the specification: register Ana (id 1, one record
    listed), register her national identifier again (refused, still one
    record), delete id 1 (success, nothing listed). *)
Example specification_scenario :
  map body
      (fst (serve empty_db
              [ (quiet 100, PostRegister ana);
                (quiet 101, GetAthletes);
                (quiet 102, PostRegister (minimal "Ana Souza" "111"));
                (quiet 103, GetAthletes);
                (quiet 104, DeleteAthlete "1");
                (quiet 105, GetAthletes) ]))
  = [ Registered 1;
      Athletes [ana_row];
      Failure "UNIQUE constraint failed: athletes.cpf";
      Athletes [ana_row];
      Success;
      Athletes [] ].
Proof. reflexivity. Qed.

(** * Further properties of the handlers *)

(** ** Invariants of the table *)

Lemma serve_invariant (I : Db -> Prop) :
  (forall env d req, I d -> I (snd (handle env d req))) ->
  forall reqs d, I d -> I (snd (serve d reqs)).
Proof.
  intros Hstep reqs. induction reqs as [|[env req] rest IH]; intros d Hd.
  - exact Hd.
  - rewrite serve_cons. cbn [snd]. apply IH, Hstep, Hd.
Qed.

Lemma NoDup_map_filter (A B : Type) (f : A -> B) (g : A -> bool) (l : list A) :
  NoDup (map f l) -> NoDup (map f (filter g l)).
Proof.
  induction l as [|x l IH]; intros H; [constructor|].
  cbn in H. inversion H as [|? ? Hx Hl]; subst. cbn.
  destruct (g x); [|apply IH, Hl].
  cbn. constructor; [|apply IH, Hl].
  intros Hin. apply Hx. apply in_map_iff in Hin. destruct Hin as (y & Hy & Hin).
  apply filter_In in Hin. apply in_map_iff. exists y. tauto.
Qed.

Lemma NoDup_map_snoc (A B : Type) (f : A -> B) (l : list A) (x : A) :
  NoDup (map f l) -> ~ In (f x) (map f l) -> NoDup (map f (l ++ [x])).
Proof.
  intros Hl Hx. rewrite map_app. cbn.
  apply NoDup_app; [exact Hl|repeat constructor; intros []|].
  intros y Hy [<-|[]]. contradiction.
Qed.

Lemma handle_rows (env : Env) (d : Db) (req : Request) :
  (exists i data params,
      req = PostRegister data
      /\ fst (handle env d req) = json (Registered i)
      /\ snd (handle env d req)
         = {| rows := rows d ++ [row_of i params (now env)]; sqlite_sequence := i |}
      /\ new_rowid d = Returned i
      /\ bind_values (run_args data) = Returned params
      /\ value_of (store_values params) nome_completo <> SNull
      /\ value_of (store_values params) cpf <> SNull
      /\ existsb (fun r => sql_equal (field_of r cpf)
                             (value_of (store_values params) cpf)) (rows d) = false)
  \/ (exists param,
         req = DeleteAthlete param
         /\ fst (handle env d req) = json Success
         /\ snd (handle env d req)
            = {| rows := filter (fun r => negb (id_equals param r)) (rows d);
                 sqlite_sequence := sqlite_sequence d |})
  \/ (snd (handle env d req) = d
      /\ forall i, fst (handle env d req) <> json (Registered i)).
Proof.
  destruct req as [data| |param]; cbn [handle].
  - destruct (post_register env d data) as [resp d'] eqn:E.
    destruct (post_register_inv _ _ _ _ _ E)
      as [(i & params & -> & -> & Hi & _ & Hb & Hn & Hc & Hu)|(m & -> & ->)].
    + left. exists i, data, params. cbn [fst snd]. tauto.
    + right. right. cbn [fst snd]. split; [reflexivity|discriminate].
  - right. right. unfold get_athletes. destruct (select_athletes env d);
      cbn [fst snd]; split; try reflexivity; discriminate.
  - unfold delete_athletes_id, delete_athlete. destruct (driver env); cbn [bind fst snd].
    + right. left. exists param. tauto.
    + right. right. split; [reflexivity|discriminate].
Qed.

Lemma handle_keeps_primary_key (env : Env) (d : Db) (req : Request) :
  primary_key d -> primary_key (snd (handle env d req)).
Proof.
  intros Hpk. unfold primary_key in *.
  destruct (handle_rows env d req)
    as [(i & data & params & _ & _ & -> & Hi & _)|[(param & _ & _ & ->)|[-> _]]];
    cbn [rows]; [| |exact Hpk].
  - apply NoDup_map_snoc; [exact Hpk|].
    apply new_rowid_Returned in Hi. destruct Hi as [_ Hrows].
    intros Hin. apply in_map_iff in Hin. destruct Hin as (r & Hr & Hin).
    specialize (Hrows r Hin). cbn in Hr. lia.
  - apply NoDup_map_filter, Hpk.
Qed.

Lemma handle_keeps_within_sequence (env : Env) (d : Db) (req : Request) :
  within_sequence d -> within_sequence (snd (handle env d req)).
Proof.
  destruct (handle env d req) as [resp d'] eqn:E.
  exact (proj1 (proj2 (proj2 (handle_step _ _ _ _ _ E)))).
Qed.

(** X1. The key bookkeeping survives every run of requests: ids stay
    pairwise distinct and [sqlite_sequence] stays at least every stored
    id. *)
Theorem run_keeps_keys (d : Db) (reqs : list (Env * Request)) :
  primary_key d -> within_sequence d ->
  primary_key (snd (serve d reqs)) /\ within_sequence (snd (serve d reqs)).
Proof.
  intros Hpk Hw.
  apply (serve_invariant (fun x => primary_key x /\ within_sequence x));
    [|split; assumption].
  intros env x req [H1 H2]. split.
  - apply handle_keeps_primary_key, H1.
  - apply handle_keeps_within_sequence, H2.
Qed.

Lemma run_keeps_keys_witness :
  primary_key (snd (serve ana_db session)) /\ within_sequence (snd (serve ana_db session)).
Proof.
  apply (run_keeps_keys ana_db session).
  - repeat constructor. simpl. tauto.
  - intros r [<-|[]]. simpl. lia.
Defined.

Lemma not_null_columns (c : Column) :
  not_null c = true -> c = nome_completo \/ c = cpf.
Proof. destruct c; cbn; intros H; try discriminate; tauto. Qed.

Lemma integer_column (c : Column) : affinity c = AffInteger -> c = termo_aceite.
Proof. destruct c; cbn; intros H; try discriminate; reflexivity. Qed.

(** The row an insertion appends has the declared shape, whatever the
    payload was. *)
Lemma row_of_typed (i : Z) (data : Payload) (params : list SqlValue) (t : Z) :
  bind_values (run_args data) = Returned params ->
  value_of (store_values params) nome_completo <> SNull ->
  value_of (store_values params) cpf <> SNull ->
  row_typed (row_of i params t).
Proof.
  intros Hb Hn Hc c. rewrite field_of_row_of. unfold column_typed.
  destruct (affinity c) eqn:Ea.
  - destruct (bind_values_inv _ _ Hb) as (_ & _ & Hp).
    destruct (value_of_store_values params c Hp) as (v & Hv).
    rewrite Ea in Hv.
    assert (Hshape : value_of (store_values params) c = SNull
                     \/ exists s, value_of (store_values params) c = SText s).
    { rewrite Hv. destruct v; cbn; eauto. }
    destruct Hshape as [Hnull|Htext]; [left|right; exact Htext].
    split; [|exact Hnull].
    destruct (not_null c) eqn:Enn; [|reflexivity].
    destruct (not_null_columns c Enn) as [-> | ->]; contradiction.
  - destruct (bind_values_inv _ _ Hb) as (_ & _ & Hp).
    destruct (value_of_store_values params c Hp) as (v & Hv).
    rewrite Ea in Hv. rewrite Hv.
    destruct v as [| |x|q|s|items|]; cbn [to_sql apply_affinity]; eauto.
    destruct (sqlite3AtoF s) eqn:E; eauto.
  - rewrite (integer_column c Ea), (consent_bound data params Hb).
    destruct (truthy (data termo_aceite)); [right|left]; reflexivity.
Qed.

Lemma handle_keeps_typed (env : Env) (d : Db) (req : Request) :
  table_typed d -> table_typed (snd (handle env d req)).
Proof.
  intros Ht. unfold table_typed in *.
  destruct (handle_rows env d req)
    as [(i & data & params & _ & _ & -> & _ & Hb & Hn & Hc & _)
       |[(param & _ & _ & ->)|[-> _]]];
    cbn [rows]; [| |exact Ht].
  - apply Forall_app. split; [exact Ht|].
    constructor; [exact (row_of_typed i data params (now env) Hb Hn Hc)|constructor].
  - rewrite Forall_forall in Ht |- *. intros r Hin.
    apply filter_In in Hin. apply Ht. tauto.
Qed.

(** X2. The stored rows always have the shape the schema declares,
    whatever the payloads were: [nome_completo] and [cpf] hold text, every
    other TEXT column text or NULL (a number sent for it is stored as its
    text), [peso] and [altura] NULL, a number, or text that does not read
    as a number, and [termo_aceite] the integer 0 or 1. *)
Theorem run_keeps_rows_typed (d : Db) (reqs : list (Env * Request)) :
  table_typed d ->
  table_typed (snd (serve d reqs))
  /\ forall r, In r (rows (snd (serve d reqs))) ->
       (exists s, json_field r nome_completo = JsString s)
       /\ (exists s, json_field r cpf = JsString s)
       /\ (json_field r termo_aceite = JsNumber 0 \/ json_field r termo_aceite = JsNumber 1).
Proof.
  intros Ht.
  assert (H : table_typed (snd (serve d reqs))).
  { apply (serve_invariant table_typed); [|exact Ht].
    intros env x req. apply handle_keeps_typed. }
  split; [exact H|].
  intros r Hin. unfold table_typed in H. rewrite Forall_forall in H.
  specialize (H r Hin). unfold json_field.
  pose proof (H nome_completo) as Hn. pose proof (H cpf) as Hc.
  pose proof (H termo_aceite) as Hb.
  unfold column_typed in Hn, Hc, Hb. cbn [affinity not_null] in Hn, Hc, Hb.
  refine (conj _ (conj _ _)).
  - destruct Hn as [[Hd _]|[s ->]]; [discriminate|]. exists s. reflexivity.
  - destruct Hc as [[Hd _]|[s ->]]; [discriminate|]. exists s. reflexivity.
  - destruct Hb as [-> | ->]; [left|right]; reflexivity.
Qed.

Lemma run_keeps_rows_typed_witness :
  table_typed (snd (serve empty_db ((quiet 100, PostRegister ana) :: session)))
  /\ forall r, In r (rows (snd (serve empty_db ((quiet 100, PostRegister ana) :: session)))) ->
       (exists s, json_field r nome_completo = JsString s)
       /\ (exists s, json_field r cpf = JsString s)
       /\ (json_field r termo_aceite = JsNumber 0 \/ json_field r termo_aceite = JsNumber 1).
Proof.
  apply (run_keeps_rows_typed empty_db ((quiet 100, PostRegister ana) :: session)).
  constructor.
Defined.

Lemma handle_keeps_cpf_key (env : Env) (d : Db) (req : Request) :
  table_typed d -> cpf_key d -> cpf_key (snd (handle env d req)).
Proof.
  intros Ht Hk. unfold cpf_key in *.
  destruct (handle_rows env d req)
    as [(i & data & params & _ & _ & -> & _ & _ & _ & Hc & Hu)
       |[(param & _ & _ & ->)|[-> _]]];
    cbn [rows]; [| |exact Hk].
  - apply NoDup_map_snoc; [exact Hk|].
    rewrite field_of_row_of. intros Hin.
    apply in_map_iff in Hin. destruct Hin as (r & Hr & Hin).
    assert (Hex : existsb (fun x => sql_equal (field_of x cpf)
                                      (value_of (store_values params) cpf)) (rows d)
                  = true).
    { apply existsb_exists. exists r. split; [exact Hin|]. rewrite Hr.
      unfold table_typed in Ht. rewrite Forall_forall in Ht.
      pose proof (Ht r Hin cpf) as Hty. unfold column_typed in Hty.
      cbn [affinity not_null] in Hty. rewrite Hr in Hty.
      destruct Hty as [[Hd _]|[s ->]]; [discriminate|].
      cbn. apply String.eqb_refl. }
    congruence.
  - apply NoDup_map_filter, Hk.
Qed.

(** X3. The national identifier stays unique over every run of requests:
    starting from a table with distinct [cpf] values, no sequence of
    registrations, listings and deletions leaves two rows with the same
    [cpf]; two stored rows with the same [cpf] are one row. *)
Theorem run_keeps_cpf_unique (d : Db) (reqs : list (Env * Request)) :
  table_typed d -> cpf_key d ->
  cpf_key (snd (serve d reqs))
  /\ forall r1 r2, In r1 (rows (snd (serve d reqs))) -> In r2 (rows (snd (serve d reqs))) ->
       field_of r1 cpf = field_of r2 cpf -> r1 = r2.
Proof.
  intros Ht Hk.
  assert (H : table_typed (snd (serve d reqs)) /\ cpf_key (snd (serve d reqs))).
  { apply (serve_invariant (fun x => table_typed x /\ cpf_key x)); [|split; assumption].
    intros env x req [H1 H2]. split.
    - apply handle_keeps_typed, H1.
    - apply handle_keeps_cpf_key; assumption. }
  destruct H as [_ H]. split; [exact H|].
  unfold cpf_key in H. revert H.
  generalize (rows (snd (serve d reqs))). intros l Hl r1 r2 H1 H2 Heq.
  induction l as [|x l IH]; [contradiction|].
  cbn in Hl. inversion Hl as [|? ? Hx Hl']; subst.
  destruct H1 as [->|H1]; destruct H2 as [->|H2].
  - reflexivity.
  - exfalso. apply Hx. rewrite Heq.
    exact (in_map (fun r => field_of r cpf) l r2 H2).
  - exfalso. apply Hx. rewrite <- Heq.
    exact (in_map (fun r => field_of r cpf) l r1 H1).
  - apply IH; assumption.
Qed.

Lemma run_keeps_cpf_unique_witness :
  cpf_key (snd (serve empty_db ((quiet 100, PostRegister ana) :: session)))
  /\ forall r1 r2,
       In r1 (rows (snd (serve empty_db ((quiet 100, PostRegister ana) :: session)))) ->
       In r2 (rows (snd (serve empty_db ((quiet 100, PostRegister ana) :: session)))) ->
       field_of r1 cpf = field_of r2 cpf -> r1 = r2.
Proof.
  apply (run_keeps_cpf_unique empty_db ((quiet 100, PostRegister ana) :: session)).
  - constructor.
  - constructor.
Defined.

(** ** Ids *)

Lemma new_rowid_next (d : Db) (v : Z) :
  0 <= sqlite_sequence d -> within_sequence d ->
  new_rowid d = Returned v -> v = sqlite_sequence d + 1.
Proof.
  intros H0 Hw. unfold new_rowid.
  destruct (last_rowid (rows d)) as [m|] eqn:E.
  - destruct (last_rowid_member _ _ E) as (r & Hin & Hr).
    specialize (Hw r Hin).
    destruct ((MAX_ROWID <=? m) || (sqlite_sequence d =? MAX_ROWID))%bool;
      [discriminate|].
    intros H. injection H as <-. lia.
  - destruct (sqlite_sequence d =? MAX_ROWID); [discriminate|].
    intros H. injection H as <-. lia.
Qed.

(** X4. Ids are handed out without gaps. Starting from a table whose
    [sqlite_sequence] is in order, the successful registrations of any run
    return [sqlite_sequence + 1], [sqlite_sequence + 2], ... in that
    order, whatever refused registrations, listings and deletions come in
    between; from the empty database they return 1, 2, 3, ...  Afterwards
    [sqlite_sequence] is the last id returned. *)
Theorem registered_ids_are_consecutive (reqs : list (Env * Request)) (d : Db) :
  0 <= sqlite_sequence d -> within_sequence d ->
  registered_ids (fst (serve d reqs))
  = count_from (sqlite_sequence d + 1) (List.length (registered_ids (fst (serve d reqs))))
  /\ sqlite_sequence (snd (serve d reqs))
     = sqlite_sequence d + Z.of_nat (List.length (registered_ids (fst (serve d reqs)))).
Proof.
  revert d. induction reqs as [|[env req] rest IH]; intros d H0 Hw.
  - cbn. split; [reflexivity|lia].
  - rewrite serve_cons. cbn [fst snd]. rewrite registered_ids_cons.
    pose proof (handle_keeps_within_sequence env d req Hw) as Hw1.
    destruct (handle_rows env d req)
      as [(i & data & params & _ & Hresp & Hd1 & Hi & _)
         |[(param & _ & Hresp & Hd1)|[Hd1 Hresp]]].
    + rewrite Hresp. cbn [body json].
      apply (new_rowid_next d i H0 Hw) in Hi.
      assert (Hs1 : sqlite_sequence (snd (handle env d req)) = i)
        by (rewrite Hd1; reflexivity).
      destruct (IH (snd (handle env d req))) as [IH1 IH2]; [lia|exact Hw1|].
      rewrite Hs1 in IH1, IH2. cbn [List.length count_from]. split.
      * rewrite IH1 at 1. rewrite Hi. reflexivity.
      * rewrite IH2. lia.
    + rewrite Hresp. cbn [body json].
      assert (Hs1 : sqlite_sequence (snd (handle env d req)) = sqlite_sequence d)
        by (rewrite Hd1; reflexivity).
      destruct (IH (snd (handle env d req))) as [IH1 IH2]; [lia|exact Hw1|].
      rewrite Hs1 in IH1, IH2. split; assumption.
    + rewrite Hd1 in *. destruct (IH d H0 Hw) as [IH1 IH2].
      destruct (fst (handle env d req)) as [st b] eqn:Er. cbn [body].
      destruct b as [i| | |]; try (split; assumption).
      destruct (handle env d req) as [resp d'] eqn:E. cbn [fst] in Er. subst resp.
      destruct (handle_step _ _ _ _ _ E) as (_ & _ & _ & Hreg).
      destruct (Hreg i eq_refl) as [Hlt Heq]. cbn [snd] in Hd1. subst d'. lia.
Qed.

Lemma registered_ids_are_consecutive_witness :
  registered_ids (fst (serve ana_db session))
  = count_from (sqlite_sequence ana_db + 1)
               (List.length (registered_ids (fst (serve ana_db session))))
  /\ sqlite_sequence (snd (serve ana_db session))
     = sqlite_sequence ana_db
       + Z.of_nat (List.length (registered_ids (fst (serve ana_db session)))).
Proof.
  apply (registered_ids_are_consecutive session ana_db).
  - simpl. lia.
  - intros r [<-|[]]. simpl. lia.
Defined.

(** ** Registration composed with the other routes *)

(** X6. Registering and then deleting the id that was returned undoes
    the registration as far as the rows go: the table has exactly the
    rows it had before.  Only [sqlite_sequence] remembers the id, which is
    therefore not handed out again. *)
Theorem register_then_delete (env env' : Env) (d d1 : Db) (data : Payload) (i : Z) :
  post_register env d data = (json (Registered i), d1) ->
  fault env' = None ->
  delete_athletes_id env' d1 (int_to_text i)
  = (json Success, {| rows := rows d; sqlite_sequence := i |}).
Proof.
  intros Hreg Hf.
  destruct (post_register_inv _ _ _ _ _ Hreg)
    as [(j & params & Hj & -> & Hi & _)|(m & Hm & _)]; [|discriminate].
  injection Hj as <-.
  apply new_rowid_Returned in Hi. destruct Hi as [_ Hrows].
  rewrite (delete_any_parameter env' _ _ Hf). cbn [rows sqlite_sequence].
  f_equal. f_equal. rewrite filter_app. cbn [filter].
  rewrite id_equals_int_to_text. cbn [id row_of]. rewrite Z.eqb_refl. cbn [negb].
  rewrite app_nil_r. apply filter_all.
  intros r Hin. rewrite id_equals_int_to_text.
  apply negb_true_iff, Z.eqb_neq. specialize (Hrows r Hin). lia.
Qed.

Lemma register_then_delete_witness :
  delete_athletes_id (quiet 101) ana_db (int_to_text 1)
  = (json Success, {| rows := rows empty_db; sqlite_sequence := 1 |}).
Proof.
  apply (register_then_delete (quiet 100) (quiet 101) empty_db ana_db ana 1).
  - reflexivity.
  - reflexivity.
Defined.

(** X7. A successful registration shows in the next listing: the
    listing has one record more than the table had rows, and exactly one
    of its records carries the returned id; that record has the
    registration's clock reading as [created_at]. *)
Theorem registered_record_is_listed (env env' : Env) (d d1 : Db) (data : Payload) (i : Z) :
  post_register env d data = (json (Registered i), d1) ->
  fault env' = None ->
  exists l r,
    get_athletes env' d1 = (json (Athletes l), d1)
    /\ List.length l = S (List.length (rows d))
    /\ In r l
    /\ id r = i
    /\ created_at r = now env
    /\ (forall x, In x l -> id x = i -> x = r).
Proof.
  intros Hreg Hf.
  destruct (post_register_inv _ _ _ _ _ Hreg)
    as [(j & params & Hj & -> & Hi & _)|(m & Hm & _)]; [|discriminate].
  injection Hj as <-.
  apply new_rowid_Returned in Hi. destruct Hi as [_ Hrows].
  destruct (list_sorted_result env'
              {| rows := rows d ++ [row_of i params (now env)]; sqlite_sequence := i |}
              Hf) as (l & Hl & Hperm).
  cbn [rows] in Hperm.
  exists l, (row_of i params (now env)).
  refine (conj Hl (conj _ (conj _ (conj eq_refl (conj eq_refl _))))).
  - rewrite (Permutation_length Hperm), length_app. cbn. lia.
  - apply (Permutation_in _ (Permutation_sym Hperm)).
    apply in_or_app. right. now left.
  - intros x Hx Hid. apply (Permutation_in _ Hperm) in Hx.
    apply in_app_or in Hx. destruct Hx as [Hx|[<-|[]]]; [|reflexivity].
    specialize (Hrows x Hx). lia.
Qed.

Lemma registered_record_is_listed_witness :
  exists l r,
    get_athletes (quiet 101) ana_db = (json (Athletes l), ana_db)
    /\ List.length l = S (List.length (rows empty_db))
    /\ In r l
    /\ id r = 1
    /\ created_at r = now (quiet 100)
    /\ (forall x, In x l -> id x = 1 -> x = r).
Proof.
  apply (registered_record_is_listed (quiet 100) (quiet 101) empty_db ana_db ana 1).
  - reflexivity.
  - reflexivity.
Defined.

(** ** Deleting, further *)

Lemma filter_other_ids_length (n : Z) (l : list Row) :
  NoDup (map id l) ->
  Nat.add (List.length (filter (fun r => negb (id r =? n)) l))
          (if existsb (fun r => id r =? n) l then 1%nat else 0%nat)
  = List.length l.
Proof.
  induction l as [|x l IH]; intros Hnd; [reflexivity|].
  cbn in Hnd. inversion Hnd as [|? ? Hx Hl]; subst. specialize (IH Hl). cbn.
  destruct (id x =? n) eqn:E; cbn.
  - apply Z.eqb_eq in E.
    assert (Hno : existsb (fun r => id r =? n) l = false).
    { destruct (existsb _ l) eqn:Ex; [|reflexivity].
      apply existsb_exists in Ex. destruct Ex as (y & Hy & Hyn).
      apply Z.eqb_eq in Hyn. exfalso. apply Hx. rewrite E, <- Hyn.
      apply in_map, Hy. }
    rewrite Hno in IH. lia.
  - lia.
Qed.

(** X8. With the primary key in order, deleting an id that is in the
    table lowers the row count by exactly one, and deleting an id that is
    not leaves the count as it is. *)
Theorem delete_removes_one_row (env : Env) (d : Db) (n : Z) :
  primary_key d ->
  fault env = None ->
  Nat.add (List.length (rows (snd (delete_athletes_id env d (int_to_text n)))))
          (if existsb (fun r => id r =? n) (rows d) then 1%nat else 0%nat)
  = List.length (rows d).
Proof.
  intros Hpk Hf. rewrite (delete_any_parameter env d _ Hf). cbn [snd rows].
  rewrite <- (filter_other_ids_length n (rows d) Hpk). f_equal.
  f_equal. apply filter_ext. intros r. now rewrite id_equals_int_to_text.
Qed.

Lemma delete_removes_one_row_witness :
  Nat.add (List.length
             (rows (snd (delete_athletes_id (quiet 102) same_second_db (int_to_text 2)))))
          (if existsb (fun r => id r =? 2) (rows same_second_db) then 1%nat else 0%nat)
  = List.length (rows same_second_db).
Proof.
  apply (delete_removes_one_row (quiet 102) same_second_db 2).
  - repeat constructor; simpl; intuition discriminate.
  - reflexivity.
Defined.

Lemma insert_desc_front (r : Row) (l : list Row) :
  (forall y, In y l -> created_at y <= created_at r) -> insert_desc r l = r :: l.
Proof.
  destruct l as [|x l]; intros H; [reflexivity|]. cbn.
  specialize (H x (or_introl eq_refl)).
  replace (created_at r <? created_at x) with false; [reflexivity|].
  symmetry. apply Z.ltb_ge. exact H.
Qed.

Lemma filter_insert_desc (f : Row -> bool) (r : Row) (l : list Row) :
  StronglySorted not_older l ->
  filter f (insert_desc r l)
  = if f r then insert_desc r (filter f l) else filter f l.
Proof.
  induction l as [|x l IH]; intros Hs.
  - cbn. destruct (f r); reflexivity.
  - inversion Hs as [|? ? Hl Hx]; subst. rewrite Forall_forall in Hx.
    cbn [insert_desc]. destruct (created_at r <? created_at x) eqn:E.
    + cbn [filter]. rewrite (IH Hl). destruct (f x), (f r); try reflexivity.
      cbn [insert_desc]. rewrite E. reflexivity.
    + apply Z.ltb_ge in E. cbn [filter]. destruct (f r); [|reflexivity].
      symmetry. apply insert_desc_front.
      intros y Hy.
      assert (Hy' : In y (x :: l)).
      { destruct (f x); [|right; apply filter_In in Hy; tauto].
        destruct Hy as [<-|Hy]; [now left|right; apply filter_In in Hy; tauto]. }
      destruct Hy' as [<-|Hy']; [exact E|].
      specialize (Hx y Hy'). unfold not_older in Hx. lia.
Qed.

Lemma order_by_created_at_desc_filter (f : Row -> bool) (t : list Row) :
  order_by_created_at_desc (filter f t) = filter f (order_by_created_at_desc t).
Proof.
  induction t as [|x t IH]; [reflexivity|]. cbn [filter order_by_created_at_desc].
  rewrite filter_insert_desc by apply order_by_created_at_desc_sorted.
  destruct (f x); [cbn [order_by_created_at_desc]; rewrite IH; reflexivity|exact IH].
Qed.

(** X9. Deleting does not reorder the listing: the listing after the
    delete of an id is the listing before it with the records of that id
    taken out, the remaining records in the order they had. *)
Theorem listing_after_delete (env env' : Env) (d : Db) (n : Z) :
  fault env = None ->
  fault env' = None ->
  exists l,
    fst (get_athletes env' d) = json (Athletes l)
    /\ fst (get_athletes env' (snd (delete_athletes_id env d (int_to_text n))))
       = json (Athletes (filter (fun r => negb (id r =? n)) l)).
Proof.
  intros Hf Hf'. exists (order_by_created_at_desc (rows d)).
  rewrite (delete_any_parameter env d _ Hf).
  unfold get_athletes, select_athletes, driver. rewrite Hf'. cbn [bind fst snd rows].
  split; [reflexivity|]. rewrite order_by_created_at_desc_filter.
  do 2 f_equal. apply filter_ext. intros r. now rewrite id_equals_int_to_text.
Qed.

Lemma listing_after_delete_witness :
  exists l,
    fst (get_athletes (quiet 103) same_second_db) = json (Athletes l)
    /\ fst (get_athletes (quiet 103)
              (snd (delete_athletes_id (quiet 102) same_second_db (int_to_text 1))))
       = json (Athletes (filter (fun r => negb (id r =? 1)) l)).
Proof.
  apply (listing_after_delete (quiet 102) (quiet 103) same_second_db 1);
    reflexivity.
Defined.

(** ** Registration: what makes it fail *)

Lemma arg_in_run_args (data : Payload) (c : Column) : In (arg data c) (run_args data).
Proof. rewrite run_args_arg. apply in_map. destruct c; cbn; tauto. Qed.

(** X11. Only the consent flag may be a JSON boolean. A payload with a
    boolean in any other field is refused before the statement reaches
    the database, with status 500 and the database unchanged, whatever
    the other fields are and whether or not the driver would fail; when
    no field is an array or an object the message is the driver's
    "SQLite3 can only bind numbers, strings, bigints, buffers, and null".
    The consent flag is converted to 1 or 0 before it is bound, so a
    boolean there is never the reason. *)
Theorem boolean_field_is_refused (env : Env) (d : Db) (data : Payload)
    (c : Column) (b : bool) :
  c <> termo_aceite ->
  data c = JsBool b ->
  (exists message, post_register env d data = (error_envelope message, d))
  /\ (scalar_fields data ->
      post_register env d data
      = (error_envelope
           "SQLite3 can only bind numbers, strings, bigints, buffers, and null",
         d)).
Proof.
  intros Hc Hb.
  assert (Hin : In (JsBool b) (run_args data)).
  { rewrite <- Hb. replace (data c) with (arg data c); [apply arg_in_run_args|].
    destruct c; try reflexivity. contradiction Hc. reflexivity. }
  split.
  - destruct (bind_args_bool _ _ Hin [] false) as (m & Hm).
    exists m. unfold post_register, insert_athlete, bind_values. rewrite Hm.
    reflexivity.
  - intros Hs. unfold post_register. rewrite (insert_athlete_eq _ _ _ Hs).
    replace (existsb is_bool (run_args data)) with true; [reflexivity|].
    symmetry. apply existsb_exists. exists (JsBool b). split; [exact Hin|reflexivity].
Qed.

Lemma boolean_field_is_refused_witness :
  (exists message,
      post_register (locked 100) empty_db
        (fun c => if Column_beq c sexo then JsBool true else ana c)
      = (error_envelope message, empty_db))
  /\ (scalar_fields (fun c => if Column_beq c sexo then JsBool true else ana c) ->
      post_register (locked 100) empty_db
        (fun c => if Column_beq c sexo then JsBool true else ana c)
      = (error_envelope
           "SQLite3 can only bind numbers, strings, bigints, buffers, and null",
         empty_db)).
Proof.
  apply (boolean_field_is_refused (locked 100) empty_db
           (fun c => if Column_beq c sexo then JsBool true else ana c) sexo true).
  - discriminate.
  - reflexivity.
Defined.

Lemma js_of_sql_text (v : SqlValue) (s : string) :
  js_of_sql v = JsString s -> v = SText s.
Proof.
  destruct v as [|n|q|t]; cbn; try destruct (Qle_bool _ _);
    intros H; try discriminate.
  now injection H as ->.
Qed.

Lemma form_shaped_no_boolean (data : Payload) :
  form_shaped data -> forall c, c <> termo_aceite -> is_bool (data c) = false.
Proof.
  intros [Hstr [Hphoto _]] c Hne.
  destruct (Column_eq_dec c foto_url) as [->|Hp].
  - destruct Hphoto as [-> | [s ->]]; reflexivity.
  - destruct (Hstr c Hne Hp) as [s ->]. reflexivity.
Qed.

Lemma form_shaped_bindable (data : Payload) :
  form_shaped data -> forall c, c <> termo_aceite -> bindable (data c) = true.
Proof.
  intros [Hstr [Hphoto _]] c Hne.
  destruct (Column_eq_dec c foto_url) as [->|Hp].
  - destruct Hphoto as [-> | [s ->]]; reflexivity.
  - destruct (Hstr c Hne Hp) as [s ->]. reflexivity.
Qed.

Lemma form_typed_shaped (data : Payload) : form_typed data -> form_shaped data.
Proof.
  intros [Hstr Hb]. refine (conj _ (conj _ Hb)).
  - intros c Hne _. apply Hstr, Hne.
  - right. apply Hstr. discriminate.
Qed.

(** X12. What a submission of the client's form can meet. For a payload
    typed like the form data (strings, possibly empty, and a boolean
    consent), with no driver failure and a rowid left, the registration
    succeeds exactly when no stored row has the submitted [cpf], and
    otherwise is refused with the message
    "UNIQUE constraint failed: athletes.cpf".  Nothing else is checked: an
    empty name or an empty national identifier is accepted.  (The form
    data are strings, a photo that may be null, and a boolean consent.) *)
Theorem form_submission_outcomes (env : Env) (d : Db) (data : Payload) :
  fault env = None ->
  has_room d ->
  form_shaped data ->
  ((forall r, In r (rows d) -> json_field r cpf <> data cpf)
   /\ exists i,
        post_register env d data
        = (json (Registered i),
           {| rows := rows d ++ [new_row i data (now env)]; sqlite_sequence := i |}))
  \/ ((exists r, In r (rows d) /\ json_field r cpf = data cpf)
      /\ post_register env d data
         = (error_envelope "UNIQUE constraint failed: athletes.cpf", d)).
Proof.
  intros Hf Hroom [Hstr [Hphoto [b Hb]]].
  destruct (Hstr nome_completo) as [name Hn]; [discriminate|discriminate|].
  destruct (Hstr cpf) as [nid Hc]; [discriminate|discriminate|].
  pose proof (form_shaped_bindable data (conj Hstr (conj Hphoto (ex_intro _ b Hb))))
    as Hbool.
  destruct (bindable_fields data Hbool) as [Hscalar Hnb].
  destruct (existsb (fun r => sql_equal (field_of r cpf) (SText nid)) (rows d)) eqn:Ex.
  - right. apply existsb_exists in Ex. destruct Ex as (r & Hin & Hr).
    assert (Hfield : field_of r cpf = SText nid).
    { destruct (field_of r cpf); cbn in Hr; try discriminate.
      apply String.eqb_eq in Hr. now subst. }
    split.
    + exists r. split; [exact Hin|]. unfold json_field. rewrite Hfield, Hc. reflexivity.
    + unfold post_register. rewrite (insert_athlete_eq _ _ _ Hscalar), Hnb, Hf.
      destruct (new_rowid_room d Hroom) as (i & ->).
      assert (Hsn : stored data nome_completo = SText name)
        by (unfold stored, arg; now rewrite Hn).
      assert (Hsc : stored data cpf = SText nid)
        by (unfold stored, arg; now rewrite Hc).
      rewrite Hsn, Hsc.
      replace (existsb (fun r0 => sql_equal (field_of r0 cpf) (SText nid)) (rows d))
        with true; [reflexivity|].
      symmetry. apply existsb_exists. exists r. split; [exact Hin|].
      rewrite Hfield. cbn. apply String.eqb_refl.
  - left.
    assert (Hfresh : forall r, In r (rows d) -> json_field r cpf <> JsString nid).
    { intros r Hin Hj. apply js_of_sql_text in Hj.
      assert (Hex : existsb (fun x => sql_equal (field_of x cpf) (SText nid)) (rows d)
                    = true).
      { apply existsb_exists. exists r. split; [exact Hin|].
        rewrite Hj. cbn. apply String.eqb_refl. }
      congruence. }
    split; [rewrite Hc; exact Hfresh|].
    destruct (post_register_text env d data name nid Hf Hroom Hn Hc Hbool Hfresh)
      as (i & _ & Hreg).
    exists i. exact Hreg.
Qed.

Lemma form_submission_outcomes_witness :
  ((forall r, In r (rows ana_db) -> json_field r cpf <> form "Bia" "111" "60" true cpf)
   /\ exists i,
        post_register (quiet 101) ana_db (form "Bia" "111" "60" true)
        = (json (Registered i),
           {| rows := rows ana_db ++ [new_row i (form "Bia" "111" "60" true) (now (quiet 101))];
              sqlite_sequence := i |}))
  \/ ((exists r, In r (rows ana_db) /\ json_field r cpf = form "Bia" "111" "60" true cpf)
      /\ post_register (quiet 101) ana_db (form "Bia" "111" "60" true)
         = (error_envelope "UNIQUE constraint failed: athletes.cpf", ana_db)).
Proof.
  apply (form_submission_outcomes (quiet 101) ana_db (form "Bia" "111" "60" true)).
  - reflexivity.
  - split; [reflexivity|]. intros r [<-|[]]. reflexivity.
  - apply form_typed_shaped, form_typed_form.
Defined.

(** * The client *)

Lemma Column_beq_eq (a b : Column) : Column_beq a b = true <-> a = b.
Proof.
  split.
  - destruct a, b; cbn; intros H; try reflexivity; discriminate.
  - intros <-. destruct a; reflexivity.
Qed.

Lemma set_field_same (data : Payload) (name : Column) (v : JsValue) :
  set_field data name v name = v.
Proof.
  unfold set_field. now rewrite (proj2 (Column_beq_eq name name) eq_refl).
Qed.

Lemma set_field_other (data : Payload) (name c : Column) (v : JsValue) :
  c <> name -> set_field data name v c = data c.
Proof.
  intros Hne. unfold set_field. destruct (Column_beq c name) eqn:E; [|reflexivity].
  apply Column_beq_eq in E. contradiction.
Qed.

Lemma set_field_shaped_input (data : Payload) (name : Column) (value : string) (s : Z) :
  form_shaped data -> input_step name = Some s ->
  form_shaped (set_field data name (JsString value)).
Proof.
  intros (Hstr & Hphoto & Hb) Hin.
  assert (Hn1 : name <> termo_aceite) by (intros ->; discriminate).
  assert (Hn2 : name <> foto_url) by (intros ->; discriminate).
  refine (conj _ (conj _ _)).
  - intros c H1 H2. destruct (Column_eq_dec c name) as [->|Hne].
    + rewrite set_field_same. eauto.
    + rewrite set_field_other by exact Hne. apply Hstr; assumption.
  - rewrite set_field_other by congruence. exact Hphoto.
  - rewrite set_field_other by congruence. exact Hb.
Qed.

Lemma set_field_shaped_consent (data : Payload) (checked : bool) :
  form_shaped data -> form_shaped (set_field data termo_aceite (JsBool checked)).
Proof.
  intros (Hstr & Hphoto & Hb). refine (conj _ (conj _ _)).
  - intros c H1 H2. rewrite set_field_other by exact H1. apply Hstr; assumption.
  - rewrite set_field_other by discriminate. exact Hphoto.
  - rewrite set_field_same. eauto.
Qed.

Lemma set_field_shaped_photo (data : Payload) (v : JsValue) :
  form_shaped data -> (v = JsNull \/ exists s, v = JsString s) ->
  form_shaped (set_field data foto_url v).
Proof.
  intros (Hstr & Hphoto & Hb) Hv. refine (conj _ (conj _ _)).
  - intros c H1 H2. rewrite set_field_other by exact H2. apply Hstr; assumption.
  - rewrite set_field_same. exact Hv.
  - rewrite set_field_other by discriminate. exact Hb.
Qed.

Lemma INITIAL_DATA_shaped : form_shaped INITIAL_DATA.
Proof.
  refine (conj _ (conj _ _)).
  - intros c H1 H2. destruct c; try (eexists; reflexivity); contradiction.
  - right. eexists. reflexivity.
  - eexists. reflexivity.
Qed.

Lemma initial_app_ok : app_ok initial_app.
Proof. split; [unfold initial_app; cbn; lia|apply INITIAL_DATA_shaped]. Qed.

Section ClientProperties.
Variable toLowerCase : string -> string.

Lemma react_keeps_app_ok (app : App) (e : Event) :
  app_ok app -> app_ok (fst (react toLowerCase app e)).
Proof.
  intros [Hstep Hform]. unfold app_ok.
  destruct e as [name value|checked|[result|]| | | | |term| |i confirmed|[response|]|[response|]|[|]];
    cbn [react].
  - destruct (view app); try (split; assumption).
    destruct (input_step name) as [s|] eqn:Es; try (split; assumption).
    destruct (renders toLowerCase app && (step app =? s))%bool;
      cbn [fst with_form step formData]; split; try assumption.
    eapply set_field_shaped_input; eassumption.
  - destruct (view app); try (split; assumption).
    destruct (renders toLowerCase app && (step app =? 5))%bool;
      cbn [fst with_form step formData]; split; try assumption.
    apply set_field_shaped_consent, Hform.
  - cbn [fst with_form step formData]. split; [assumption|].
    apply set_field_shaped_photo; eauto.
  - cbn [fst with_form step formData]. split; [assumption|].
    apply set_field_shaped_photo; eauto.
  - destruct (view app); try (split; assumption).
    destruct (renders toLowerCase app && negb (next_disabled app))%bool;
      try (split; assumption).
    destruct (step app <? 5) eqn:E;
      cbn [fst handleSubmit with_step with_loading step formData];
      split; try assumption.
    apply Z.ltb_lt in E. lia.
  - destruct (view app); try (split; assumption).
    destruct (renders toLowerCase app && (1 <? step app))%bool eqn:E;
      try (split; assumption).
    apply andb_true_iff in E. destruct E as [_ E]. apply Z.ltb_lt in E.
    cbn [fst with_step step formData]. split; [lia|assumption].
  - destruct (renders toLowerCase app); try (split; assumption).
    destruct (view app); cbn; split; assumption.
  - destruct (view app); try (split; assumption).
    destruct (renders toLowerCase app); cbn; try (split; assumption).
    split; [lia|apply INITIAL_DATA_shaped].
  - destruct (view app); try (split; assumption).
    destruct (renders toLowerCase app); cbn; split; assumption.
  - destruct (view app); try (split; assumption).
    destruct (renders toLowerCase app); cbn; split; assumption.
  - destruct (delete_shown toLowerCase app i && confirmed)%bool; cbn; split; assumption.
  - destruct (body response); cbn; split; assumption.
  - cbn. split; assumption.
  - cbn. split; assumption.
  - cbn. split; assumption.
  - cbn. split; assumption.
  - cbn. split; assumption.
Qed.

Lemma run_cons (app : App) (e : Event) (rest : list Event) :
  run toLowerCase app (e :: rest)
  = (fst (run toLowerCase (fst (react toLowerCase app e)) rest),
     (snd (react toLowerCase app e)
      ++ snd (run toLowerCase (fst (react toLowerCase app e)) rest))%list).
Proof.
  cbn [run]. destruct (react toLowerCase app e) as [app1 eff1].
  cbn [fst snd]. destruct (run toLowerCase app1 rest). reflexivity.
Qed.

Lemma run_keeps_app_ok (events : list Event) (app : App) :
  app_ok app -> app_ok (fst (run toLowerCase app events)).
Proof.
  revert app. induction events as [|e rest IH]; intros app H; [exact H|].
  rewrite run_cons. cbn [fst]. apply IH, react_keeps_app_ok, H.
Qed.

(** X13. Whatever the user does and whatever the network answers, the
    wizard stays on one of its steps 1 to 5, and the form data keep their
    shape: a string in every field, a photo that is a string or null, a
    boolean consent flag. *)
Theorem wizard_invariant (events : list Event) :
  1 <= step (fst (run toLowerCase initial_app events)) <= 5
  /\ form_shaped (formData (fst (run toLowerCase initial_app events))).
Proof.
  apply (run_keeps_app_ok events initial_app).
  split; [cbn; lia|apply INITIAL_DATA_shaped].
Qed.

Lemma submissions_app (l1 l2 : list Effect) :
  submissions (l1 ++ l2) = (submissions l1 ++ submissions l2)%list.
Proof.
  induction l1 as [|x l1 IH]; [reflexivity|]. cbn.
  destruct x as [[data| |param]|m]; cbn; rewrite ?IH; reflexivity.
Qed.

Lemma react_submissions (app : App) (e : Event) :
  app_ok app ->
  Forall (fun data => data termo_aceite = JsBool true /\ form_shaped data)
         (submissions (snd (react toLowerCase app e))).
Proof.
  intros [Hstep Hform].
  destruct e as [name value|checked|[result|]| | | | |term| |i confirmed|[response|]|[response|]|[|]];
    cbn [react].
  - destruct (view app), (input_step name); try constructor;
      destruct (renders toLowerCase app && (step app =? z))%bool; constructor.
  - destruct (view app); try constructor;
      destruct (renders toLowerCase app && (step app =? 5))%bool; constructor.
  - constructor.
  - constructor.
  - destruct (view app); try constructor.
    destruct (renders toLowerCase app && negb (next_disabled app))%bool eqn:E;
      [|constructor].
    destruct (step app <? 5) eqn:E5; [constructor|].
    cbn [handleSubmit snd submissions]. constructor; [|constructor].
    split; [|exact Hform].
    apply andb_true_iff in E. destruct E as [_ E]. apply negb_true_iff in E.
    unfold next_disabled in E. apply orb_false_iff in E. destruct E as [_ E].
    apply Z.ltb_ge in E5.
    replace (step app =? 5) with true in E by (symmetry; apply Z.eqb_eq; lia).
    cbn [andb] in E. apply negb_false_iff in E.
    destruct Hform as (_ & _ & b & Hb). rewrite Hb in E |- *. cbn in E. now subst.
  - destruct (view app); try constructor;
      destruct (renders toLowerCase app && (1 <? step app))%bool; constructor.
  - destruct (renders toLowerCase app); [|constructor].
    destruct (view app); constructor.
  - destruct (view app); try constructor; destruct (renders toLowerCase app); constructor.
  - destruct (view app); try constructor; destruct (renders toLowerCase app); constructor.
  - destruct (view app); try constructor; destruct (renders toLowerCase app); constructor.
  - destruct (delete_shown toLowerCase app i && confirmed)%bool; constructor.
  - destruct (body response); constructor.
  - constructor.
  - constructor.
  - constructor.
  - constructor.
  - constructor.
Qed.

Lemma run_submissions (events : list Event) (app : App) :
  app_ok app ->
  Forall (fun data => data termo_aceite = JsBool true /\ form_shaped data)
         (submissions (snd (run toLowerCase app events))).
Proof.
  revert app. induction events as [|e rest IH]; intros app H; [constructor|].
  rewrite run_cons. cbn [snd]. rewrite submissions_app. apply Forall_app. split.
  - apply react_submissions, H.
  - apply IH, react_keeps_app_ok, H.
Qed.

(** X14. The form never sends a registration without consent: in every
    run of the component, each POST /api/register it sends carries
    [termo_aceite: true], form-shaped data, and so no boolean in any other
    field. *)
Theorem submissions_carry_consent (events : list Event) :
  Forall (fun data =>
            data termo_aceite = JsBool true
            /\ form_shaped data
            /\ forall c, c <> termo_aceite -> is_bool (data c) = false)
         (submissions (snd (run toLowerCase initial_app events))).
Proof.
  eapply Forall_impl; [|apply (run_submissions events initial_app)].
  - cbn. intros data [H1 H2].
    exact (conj H1 (conj H2 (form_shaped_no_boolean data H2))).
  - split; [cbn; lia|apply INITIAL_DATA_shaped].
Qed.

End ClientProperties.

Section ClientServer.
Variable toLowerCase : string -> string.

(** X15. A record that comes from the form has the consent flag stored
    as 1, and text (never NULL) in every TEXT column but the photo:
    whatever the run of the component, if the server stores a registration
    the component sent, the new row is like that. *)
Theorem form_records_have_consent (events : list Event) (data : Payload)
    (env : Env) (d d' : Db) (i : Z) :
  In data (submissions (snd (run toLowerCase initial_app events))) ->
  post_register env d data = (json (Registered i), d') ->
  exists r,
    rows d' = (rows d ++ [r])%list
    /\ id r = i
    /\ field_of r termo_aceite = SInt 1
    /\ forall c, affinity c = AffText -> c <> foto_url -> exists s, field_of r c = SText s.
Proof.
  intros Hin Hreg.
  pose proof (run_submissions toLowerCase events initial_app initial_app_ok) as Hall.
  rewrite Forall_forall in Hall. destruct (Hall data Hin) as [Hc Hshape].
  pose proof (proj1 (bindable_fields data (form_shaped_bindable data Hshape)))
    as Hscalar.
  destruct Hshape as (Hstr & _ & _).
  destruct (post_register_scalar_inv _ _ _ _ _ Hscalar Hreg)
    as [(j & Hj & -> & _)|(m & Hm & _)]; [|discriminate].
  injection Hj as <-.
  exists (new_row i data (now env)).
  refine (conj eq_refl (conj eq_refl (conj _ _))).
  - rewrite field_of_new_row. unfold stored, arg. rewrite Hc. reflexivity.
  - intros c Ha Hp. rewrite field_of_new_row. unfold stored. rewrite Ha.
    assert (Hne : c <> termo_aceite) by (intros ->; discriminate).
    destruct (Hstr c Hne Hp) as [s Hs].
    exists s. unfold arg. destruct c; try (rewrite Hs; reflexivity). contradiction.
Qed.

(** X16. The success screen and the store agree. On the last step, with
    consent given and nothing pending, pressing the forward button sends
    the form data; if the server stores them the component shows the
    success view, and if the server refuses the component is back in the
    state it was in (the data entered are kept, the view is still the
    form) and alerts "Erro ao cadastrar: " followed by the server's
    message, the database unchanged. *)
Theorem submit_round_outcome (env : Env) (app : App) (d : Db) :
  view app = FormView ->
  step app = 5 ->
  loading app = false ->
  renders toLowerCase app = true ->
  truthy (formData app termo_aceite) = true ->
  (forall i d', post_register env d (formData app) = (json (Registered i), d') ->
     submit_round toLowerCase env app d = (with_view app SuccessView, [], d'))
  /\ (forall message,
        post_register env d (formData app) = (error_envelope message, d) ->
        submit_round toLowerCase env app d
        = (app, [Alert ("Erro ao cadastrar: " ++ message)], d)).
Proof.
  intros Hv Hs Hl Hr Ht.
  assert (Hclick : react toLowerCase app ClickNext
                   = (with_loading app true, [Send (PostRegister (formData app))])).
  { cbn [react]. rewrite Hv, Hr. unfold next_disabled. rewrite Hl, Hs, Ht. reflexivity. }
  split.
  - intros i d' Hreg. unfold submit_round. rewrite Hclick. cbn [handle]. rewrite Hreg.
    cbn. destruct app; cbn in *; subst. reflexivity.
  - intros message Hreg. unfold submit_round. rewrite Hclick. cbn [handle]. rewrite Hreg.
    cbn. destruct app; cbn in *; subst. reflexivity.
Qed.

Lemma includes_empty (s : string) : includes s "" = true.
Proof. destruct s; reflexivity. Qed.

Lemma filter_athletes_empty_term (l : list Row) :
  toLowerCase "" = "" ->
  (forall a, In a l -> exists s, json_field a nome_completo = JsString s) ->
  filter_athletes toLowerCase "" l = Returned l.
Proof.
  intros Hlow. induction l as [|a l IH]; intros Hnames; [reflexivity|].
  cbn [filter_athletes].
  destruct (Hnames a (or_introl eq_refl)) as [s Hn].
  unfold matches. rewrite Hn, Hlow, includes_empty. cbn [bind].
  rewrite IH; [reflexivity|].
  intros x Hx. apply Hnames. now right.
Qed.

(** X17. An empty search box hides nobody: with the empty search term
    (lower-casing the empty text gives the empty text) the admin table
    shows every athlete of the list, in the order of the list, provided
    each has a string for a name. *)
Theorem empty_search_shows_all (app : App) (l : list Row) :
  toLowerCase "" = "" ->
  athletes app = Athletes l ->
  searchTerm app = "" ->
  (forall a, In a l -> exists s, json_field a nome_completo = JsString s) ->
  filteredAthletes toLowerCase app = Returned l.
Proof.
  intros Hlow Ha Hs Hnames. unfold filteredAthletes. rewrite Ha, Hs.
  apply filter_athletes_empty_term; assumption.
Qed.

Lemma filter_athletes_strings (term : string) (l : list Row) :
  (forall a, In a l ->
     (exists s, json_field a nome_completo = JsString s)
     /\ (exists s, json_field a cpf = JsString s)) ->
  filter_athletes toLowerCase term l = Returned (filter (shown toLowerCase term) l).
Proof.
  induction l as [|a l IH]; intros H; [reflexivity|]. cbn [filter_athletes filter].
  destruct (H a (or_introl eq_refl)) as [[n Hn] [c Hc]].
  assert (Hm : matches toLowerCase term a = Returned (shown toLowerCase term a)).
  { unfold shown, matches. rewrite Hn, Hc.
    destruct (includes (toLowerCase n) (toLowerCase term)); reflexivity. }
  rewrite Hm. cbn [bind]. rewrite IH; [reflexivity|].
  intros x Hx. apply H. now right.
Qed.

(** X18. The search never fails on what the server lists. For a table
    whose rows have the declared shape (as every table the server builds
    has), the list the component receives can be filtered with any search
    term: the render does not throw, and the table shows, in list order,
    exactly the athletes whose lower-cased name contains the lower-cased
    term or whose [cpf] contains the term. *)
Theorem search_works_on_listing (env : Env) (d : Db) (app : App) :
  table_typed d ->
  fault env = None ->
  athletes app = body (fst (get_athletes env d)) ->
  exists l,
    athletes app = Athletes l
    /\ Permutation l (rows d)
    /\ filteredAthletes toLowerCase app
       = Returned (filter (shown toLowerCase (searchTerm app)) l)
    /\ renders toLowerCase app = true
    /\ forall a n c,
         In a l -> json_field a nome_completo = JsString n -> json_field a cpf = JsString c ->
         shown toLowerCase (searchTerm app) a
         = (includes (toLowerCase n) (toLowerCase (searchTerm app))
            || includes c (searchTerm app))%bool.
Proof.
  intros Ht Hf Ha.
  destruct (list_sorted_result env d Hf) as (l & Hl & Hperm).
  rewrite Hl in Ha. cbn in Ha. exists l.
  assert (Hfil : filteredAthletes toLowerCase app
                 = Returned (filter (shown toLowerCase (searchTerm app)) l)).
  { unfold filteredAthletes. rewrite Ha. apply filter_athletes_strings.
    intros a Hin. apply (Permutation_in _ Hperm) in Hin.
    unfold table_typed in Ht. rewrite Forall_forall in Ht. specialize (Ht a Hin).
    pose proof (Ht nome_completo) as Hn. pose proof (Ht cpf) as Hc.
    unfold column_typed in Hn, Hc. cbn [affinity not_null] in Hn, Hc.
    unfold json_field. split.
    - destruct Hn as [[Hd _]|[s ->]]; [discriminate|]. exists s. reflexivity.
    - destruct Hc as [[Hd _]|[s ->]]; [discriminate|]. exists s. reflexivity. }
  refine (conj Ha (conj Hperm (conj Hfil (conj _ _)))).
  - unfold renders. rewrite Hfil. reflexivity.
  - intros a n c _ Hn Hc. unfold shown, matches. rewrite Hn, Hc.
    destruct (includes (toLowerCase n) (toLowerCase (searchTerm app))); reflexivity.
Qed.

(** X19. A failed listing breaks the page. The component stores the body
    of the answer to GET /api/athletes without looking at the status; when
    the store call throws, that body is the error envelope, not an array,
    and the next render throws at [athletes.filter]. *)
Theorem failed_listing_breaks_render (env : Env) (d : Db) (app : App) (message : string) :
  fault env = Some message ->
  filteredAthletes toLowerCase
    (fst (react toLowerCase app (FetchSettled (Some (fst (get_athletes env d))))))
  = Thrown "athletes.filter is not a function"
  /\ renders toLowerCase
       (fst (react toLowerCase app (FetchSettled (Some (fst (get_athletes env d))))))
     = false.
Proof.
  intros Hf. unfold get_athletes, select_athletes, driver. rewrite Hf.
  split; reflexivity.
Qed.

(** X20. Deleting from the admin table. When the delete button of
    athlete [i] is on the screen and the user confirms, the component
    sends the delete for [i], asks for the list again and stores it: the
    server has lost exactly the rows with id [i], and the table shows the
    former listing without them, the others in their order; the loading
    flag is down again.  When the user does not confirm, nothing is sent
    and nothing changes. *)
Theorem delete_round_outcome (env env' : Env) (app : App) (d : Db) (i : Z) :
  delete_shown toLowerCase app i = true ->
  fault env = None ->
  fault env' = None ->
  rows (snd (delete_round toLowerCase env env' app d i))
  = filter (fun r => negb (id r =? i)) (rows d)
  /\ athletes (fst (delete_round toLowerCase env env' app d i))
     = Athletes (filter (fun r => negb (id r =? i)) (order_by_created_at_desc (rows d)))
  /\ loading (fst (delete_round toLowerCase env env' app d i)) = false
  /\ react toLowerCase app (ClickDelete i false) = (app, []).
Proof.
  intros Hshown Hf Hf'.
  assert (Hfil : forall t,
             filter (fun r => negb (id_equals (int_to_text i) r)) t
             = filter (fun r => negb (id r =? i)) t).
  { intros t. apply filter_ext. intros r. now rewrite id_equals_int_to_text. }
  assert (Hclick : react toLowerCase app (ClickDelete i true)
                   = (app, [Send (DeleteAthlete (int_to_text i))])).
  { cbn [react]. rewrite Hshown. reflexivity. }
  assert (Hlist : forall t sq,
             get_athletes env' {| rows := t; sqlite_sequence := sq |}
             = (json (Athletes (order_by_created_at_desc t)),
                {| rows := t; sqlite_sequence := sq |})).
  { intros t sq. unfold get_athletes, select_athletes, driver.
    rewrite Hf'. reflexivity. }
  unfold delete_round. rewrite Hclick. cbv beta iota. cbn [handle].
  rewrite (delete_any_parameter env d _ Hf), Hfil. cbv beta iota.
  cbn [react fetchAthletes]. rewrite Hlist. cbv beta iota.
  cbn [react fst snd athletes loading rows body json].
  rewrite order_by_created_at_desc_filter.
  refine (conj eq_refl (conj eq_refl (conj eq_refl _))).
  rewrite andb_false_r. reflexivity.
Qed.

End ClientServer.

(** ** Scenarios of the client *)

Lemma form_records_have_consent_witness :
  exists r,
    rows (snd (post_register (quiet 100) empty_db (formData at_last_step)))
    = (rows empty_db ++ [r])%list
    /\ id r = 1
    /\ field_of r termo_aceite = SInt 1
    /\ forall c, affinity c = AffText -> c <> foto_url -> exists s, field_of r c = SText s.
Proof.
  apply (form_records_have_consent ascii_toLowerCase
           [ClickNext; ClickNext; ClickNext; ClickNext; CheckboxChange true; ClickNext]
           (formData at_last_step) (quiet 100) empty_db
           (snd (post_register (quiet 100) empty_db (formData at_last_step))) 1).
  - simpl. left. reflexivity.
  - reflexivity.
Defined.

Lemma submit_round_outcome_witness :
  (forall i d',
      post_register (quiet 100) empty_db (formData at_last_step) = (json (Registered i), d') ->
      submit_round ascii_toLowerCase (quiet 100) at_last_step empty_db
      = (with_view at_last_step SuccessView, [], d'))
  /\ (forall message,
        post_register (quiet 100) empty_db (formData at_last_step)
        = (error_envelope message, empty_db) ->
        submit_round ascii_toLowerCase (quiet 100) at_last_step empty_db
        = (at_last_step, [Alert ("Erro ao cadastrar: " ++ message)], empty_db)).
Proof.
  apply (submit_round_outcome ascii_toLowerCase (quiet 100) at_last_step empty_db);
    reflexivity.
Defined.

Lemma empty_search_shows_all_witness :
  filteredAthletes ascii_toLowerCase admin_app = Returned [ana_row; bia_row].
Proof.
  apply (empty_search_shows_all ascii_toLowerCase admin_app [ana_row; bia_row]).
  - reflexivity.
  - reflexivity.
  - reflexivity.
  - intros a [<-|[<-|[]]]; eexists; reflexivity.
Defined.

Lemma same_second_db_typed : table_typed same_second_db.
Proof.
  unfold same_second_db. apply (serve_invariant table_typed); [|constructor].
  intros env d req. apply handle_keeps_typed.
Qed.

Lemma search_works_on_listing_witness :
  exists l,
    athletes admin_app = Athletes l
    /\ Permutation l (rows same_second_db)
    /\ filteredAthletes ascii_toLowerCase admin_app
       = Returned (filter (shown ascii_toLowerCase (searchTerm admin_app)) l)
    /\ renders ascii_toLowerCase admin_app = true
    /\ forall a n c,
         In a l -> json_field a nome_completo = JsString n -> json_field a cpf = JsString c ->
         shown ascii_toLowerCase (searchTerm admin_app) a
         = (includes (ascii_toLowerCase n) (ascii_toLowerCase (searchTerm admin_app))
            || includes c (searchTerm admin_app))%bool.
Proof.
  apply (search_works_on_listing ascii_toLowerCase (quiet 101) same_second_db admin_app).
  - exact same_second_db_typed.
  - reflexivity.
  - reflexivity.
Defined.

Lemma failed_listing_breaks_render_witness :
  filteredAthletes ascii_toLowerCase
    (fst (react ascii_toLowerCase admin_app
            (FetchSettled (Some (fst (get_athletes (locked 104) same_second_db))))))
  = Thrown "athletes.filter is not a function"
  /\ renders ascii_toLowerCase
       (fst (react ascii_toLowerCase admin_app
               (FetchSettled (Some (fst (get_athletes (locked 104) same_second_db))))))
     = false.
Proof.
  apply (failed_listing_breaks_render ascii_toLowerCase (locked 104) same_second_db
           admin_app "database is locked").
  reflexivity.
Defined.

Lemma delete_round_outcome_witness :
  rows (snd (delete_round ascii_toLowerCase (quiet 102) (quiet 103) admin_app same_second_db 1))
  = filter (fun r => negb (id r =? 1)) (rows same_second_db)
  /\ athletes (fst (delete_round ascii_toLowerCase (quiet 102) (quiet 103)
                      admin_app same_second_db 1))
     = Athletes (filter (fun r => negb (id r =? 1))
                        (order_by_created_at_desc (rows same_second_db)))
  /\ loading (fst (delete_round ascii_toLowerCase (quiet 102) (quiet 103)
                     admin_app same_second_db 1)) = false
  /\ react ascii_toLowerCase admin_app (ClickDelete 1 false) = (admin_app, []).
Proof.
  apply (delete_round_outcome ascii_toLowerCase (quiet 102) (quiet 103)
           admin_app same_second_db 1); reflexivity.
Defined.

(** The search on the two same-second athletes: by part of a name in any
    case, by part of a [cpf], and with no match. *)
Example search_samples :
  map (fun term =>
         match filter_athletes ascii_toLowerCase term [ana_row; bia_row] with
         | Returned kept => map id kept
         | Thrown _ => [-1]
         end)
      [""; "ANA"; "silva"; "22"; "1"; "x"]
  = [[1; 2]; [1]; [1]; [2]; [1]; []].
Proof. reflexivity. Qed.
